(** * BenchMark-Suite: the three chat clients, embedded and verified

    The repository compares three command-line clients of a text-generation
    service: [client.py] (tools reached through an MCP session),
    [client2.py] (tools implemented locally on the file system) and
    [client3.py] (no tools).  This development embeds their
    [process_query], [chat_loop], [connect_to_server] and the local file
    tools as functions over an explicit world, and states the properties of
    the specification against them.

    Conventions of the embedding:
    - a Python [str] is held as the [string] of its UTF-8 bytes, a lone
      surrogate as the three bytes the [surrogatepass] handler gives it;
      file contents are [string]s of bytes, so decoding valid UTF-8 is the
      identity, and a [str] can be encoded exactly when its bytes are valid
      UTF-8;
    - the file system is the one of a POSIX host without symbolic links;
    - a Python value coming from JSON, and every dict literal the clients
      build, is a [json] value; a dict keeps its items in insertion order;
    - a call that may raise returns an [outcome]; the clients run in the
      monad [M] of a world with failure; an exception carries its class
      and the text of [str(e)], shortened where the interpreter words it
      from the offending value (a type name, a byte offset);
    - the collaborators that live outside the repository (the generation
      service, the MCP session, the JSON decoder, path resolution) are the
      fields of the class [Externals]; every statement holds for all of
      them, and [Ref] gives executable ones to run the clients on concrete
      inputs. *)

From Stdlib Require Import ZArith String Ascii List Bool Lia DecimalString.
From stdpp Require Import base option list gmap strings.

Local Open Scope string_scope.
Local Open Scope list_scope.
Set Warnings "-register-all".

(** ** Python basics: exceptions, outcomes, a few [str] methods *)

Module Py.

Inductive exn_class :=
| ValueError | TypeError | AttributeError | IndexError | KeyError
| PermissionError | FileNotFoundError | IsADirectoryError
| NotADirectoryError | FileExistsError | UnicodeDecodeError
| UnicodeEncodeError | NotImplementedError
| JSONDecodeError | EOFError
| ServiceError        (* raised by a collaborator: genai ClientError, MCP error *)
| KeyboardInterrupt.  (* a BaseException that is not an Exception *)

Record exn := Exn { exn_kind : exn_class; exn_msg : string }.

(** [except Exception] catches everything but the BaseException-only
    classes. *)
Definition is_Exception (e : exn) : bool :=
  match exn_kind e with
  | KeyboardInterrupt => false
  | _ => true
  end.

Inductive outcome (A : Type) :=
| Return (a : A)
| Raise (e : exn).
Arguments Return {A} a.
Arguments Raise {A} e.

Definition obind {A B} (o : outcome A) (k : A -> outcome B) : outcome B :=
  match o with
  | Return a => k a
  | Raise e => Raise e
  end.

(** [xs[0]] *)
Definition index0 {A} (xs : list A) : outcome A :=
  match xs with
  | x :: _ => Return x
  | [] => Raise (Exn IndexError "list index out of range")
  end.

(** [for x in xs: f(x)] collecting the results, stopping at the first
    exception (a generator consumed by [join], a comprehension). *)
Fixpoint omap {A B} (f : A -> outcome B) (xs : list A) : outcome (list B) :=
  match xs with
  | [] => Return []
  | x :: xs' =>
      match f x with
      | Raise e => Raise e
      | Return y =>
          match omap f xs' with
          | Raise e => Raise e
          | Return ys => Return (y :: ys)
          end
      end
  end.

(** *** [str] methods *)

(** The line feed, written backslash-n in the source. *)
Definition LF : string := String "010"%char EmptyString.

Definition chars (s : string) : list ascii := list_ascii_of_string s.
Definition str (l : list ascii) : string := string_of_list_ascii l.

(** [sep.join(xs)] *)
Fixpoint join (sep : string) (xs : list string) : string :=
  match xs with
  | [] => ""
  | [x] => x
  | x :: xs' => x +:+ sep +:+ join sep xs'
  end.

(** [s.endswith(suffix)] *)
Definition endswith (s suffix : string) : bool :=
  let n := String.length s in
  let m := String.length suffix in
  (m <=? n)%nat && String.eqb (substring (n - m) m s) suffix.

(** [s.startswith(prefix)] *)
Definition startswith (s prefix : string) : bool :=
  String.prefix prefix s.

(** [needle in s] *)
Fixpoint contains (needle s : string) : bool :=
  String.prefix needle s ||
  match s with
  | String _ s' => contains needle s'
  | EmptyString => false
  end.

(** [s.split(sep)] for a separator of one character. *)
Fixpoint split_at (sep : ascii) (cur : list ascii) (l : list ascii)
  : list string :=
  match l with
  | [] => [str (rev cur)]
  | c :: l' =>
      if Ascii.eqb c sep then str (rev cur) :: split_at sep [] l'
      else split_at sep (c :: cur) l'
  end.

Definition split (sep : ascii) (s : string) : list string :=
  split_at sep [] (chars s).

(** A byte that continues a character begun before it. *)
Definition continuation (c : ascii) : bool :=
  let n := nat_of_ascii c in
  ((128 <=? n) && (n <? 192))%nat.

(** The characters of a [str], each with the bytes that encode it. *)
Fixpoint code_points (l : list ascii) : list (list ascii) :=
  match l with
  | [] => []
  | c :: l' =>
      match code_points l' with
      | (d :: g) :: gs =>
          if continuation d then (c :: d :: g) :: gs
          else [c] :: (d :: g) :: gs
      | gs => [c] :: gs
      end
  end.

(** Whitespace in the sense of [str.isspace], by the bytes of the
    character: TAB, LF, VT, FF, CR, FS, GS, RS, US and space; U+0085 and
    U+00A0; U+1680; U+2000 to U+200A, U+2028, U+2029 and U+202F; U+205F;
    U+3000. *)
Definition isspace (ch : list ascii) : bool :=
  match map nat_of_ascii ch with
  | [n] => ((9 <=? n) && (n <=? 13) || (28 <=? n) && (n <=? 32))%nat
  | [a; n] => ((a =? 194) && ((n =? 133) || (n =? 160)))%nat
  | [a; b; n] =>
      ((a =? 225) && (b =? 154) && (n =? 128)
       || (a =? 226) && (b =? 128)
          && ((128 <=? n) && (n <=? 138)
              || (n =? 168) || (n =? 169) || (n =? 175))
       || (a =? 226) && (b =? 129) && (n =? 159)
       || (a =? 227) && (b =? 128) && (n =? 128))%nat
  | _ => false
  end.

(** [l] without the characters at its head that [space] accepts; a
    character takes at most three bytes here. *)
Fixpoint strip_head (space : list ascii -> bool) (l : list ascii)
  : list ascii :=
  match l with
  | c :: l1 =>
      if space [c] then strip_head space l1
      else
        match l1 with
        | d :: l2 =>
            if space [c; d] then strip_head space l2
            else
              match l2 with
              | e :: l3 =>
                  if space [c; d; e] then strip_head space l3 else l
              | [] => l
              end
        | [] => l
        end
  | [] => []
  end.

Definition lstrip_chars (l : list ascii) : list ascii :=
  strip_head isspace l.

(** The same from the end: the bytes of a character are met last first. *)
Definition rstrip_chars (l : list ascii) : list ascii :=
  rev (strip_head (fun ch => isspace (rev ch)) (rev l)).

(** [s.strip()] *)
Definition strip (s : string) : string :=
  str (rstrip_chars (lstrip_chars (chars s))).

(** Lower case of a byte: the ASCII letters.  [str.lower] also changes
    letters outside ASCII, but no [str] that holds one of them lowers to
    ['quit'] or ['exit'], and [lower] is used for that test only. *)
Definition lower_char (c : ascii) : ascii :=
  let n := nat_of_ascii c in
  if ((65 <=? n) && (n <=? 90))%nat then ascii_of_nat (n + 32) else c.

(** [s.lower()] *)
Definition lower (s : string) : string := str (map lower_char (chars s)).

(** [x in (a, b, ...)] on strings *)
Definition str_in (x : string) (xs : list string) : bool :=
  existsb (String.eqb x) xs.

End Py.
Export Py.

(** ** JSON values, which are also the Python values the clients handle *)

Module Json.

(** What [json.loads] produces and what a dict literal holds: [None],
    a bool, an int, a [str], a list, a dict with [str] keys (items in
    insertion order).  Floats do not occur in the code paths modelled. *)
Inductive json :=
| JNull
| JBool (b : bool)
| JInt (z : Z)
| JStr (s : string)
| JArr (l : list json)
| JObj (kvs : list (string * json)).

(** [d[k]] when present *)
Fixpoint dict_get (k : string) (kvs : list (string * json)) : option json :=
  match kvs with
  | [] => None
  | (k', v) :: kvs' => if String.eqb k k' then Some v else dict_get k kvs'
  end.

(** [d.get(k, dflt)] on a dict *)
Definition get (k : string) (dflt : json) (kvs : list (string * json)) : json :=
  match dict_get k kvs with
  | Some v => v
  | None => dflt
  end.

(** [v.get(k, dflt)] on an arbitrary value: only a dict has [get]. *)
Definition py_get (v : json) (k : string) (dflt : json) : outcome json :=
  match v with
  | JObj kvs => Return (get k dflt kvs)
  | _ => Raise (Exn AttributeError "object has no attribute 'get'")
  end.

(** [v.items()] on an arbitrary value *)
Definition py_items (v : json) : outcome (list (string * json)) :=
  match v with
  | JObj kvs => Return kvs
  | _ => Raise (Exn AttributeError "object has no attribute 'items'")
  end.

(** [iter(v)]: a list yields its elements, a dict its keys, a [str] its
    characters; nothing else is iterable. *)
Definition py_iter (v : json) : outcome (list json) :=
  match v with
  | JArr l => Return l
  | JObj kvs => Return (map (fun kv => JStr (fst kv)) kvs)
  | JStr s => Return (map (fun ch => JStr (str ch)) (code_points (chars s)))
  | _ => Raise (Exn TypeError "object is not iterable")
  end.

(** What [str.join] demands of each element *)
Definition as_str (v : json) : outcome string :=
  match v with
  | JStr s => Return s
  | _ => Raise (Exn TypeError "sequence item: expected str instance")
  end.

(** [v[k]] *)
Definition subscript (v : json) (k : string) : outcome json :=
  match v with
  | JObj kvs =>
      match dict_get k kvs with
      | Some x => Return x
      | None => Raise (Exn KeyError k)
      end
  | _ => Raise (Exn TypeError "object is not subscriptable")
  end.

(** [a + b] on the counts the clients add *)
Definition py_add (a b : json) : outcome json :=
  match a, b with
  | JInt x, JInt y => Return (JInt (x + y))
  | _, _ => Raise (Exn TypeError "unsupported operand type(s) for +")
  end.

(** The keys of a dict value ([[]] for anything else) *)
Definition keys (v : json) : list string :=
  match v with
  | JObj kvs => map fst kvs
  | _ => []
  end.

(** [v[k]] as an option, for reading results *)
Definition field (k : string) (v : json) : option json :=
  match v with
  | JObj kvs => dict_get k kvs
  | _ => None
  end.

(** A [str] attribute that may be [None], as a value. *)
Definition opt_str (o : option string) : json :=
  match o with
  | Some s => JStr s
  | None => JNull
  end.

(** The dict every [process_query] returns. *)
Definition result_dict (text : json) (prompt_tokens resp_tokens : Z) : json :=
  JObj [("text", text);
        ("usage_metadata",
         JObj [("prompt_token_count", JInt prompt_tokens);
               ("response_token_count", JInt resp_tokens)])].

End Json.
Export Json.

(** ** The MCP session's types *)

Module Mcp.

(** A tool descriptor of the provider's catalog.  [inputSchema] is a dict
    by its declared type; its values are whatever the provider sent. *)
Record Tool := {
  name : string;
  description : json;
  inputSchema : list (string * json)
}.

(** One item of a tool result; [text] is [None] for an item that has no
    [text] attribute (an image, a resource). *)
Record ContentItem := { text : option string }.

Record CallToolResult := {
  content : list ContentItem;
  isError : bool
}.

Inductive session_request :=
| ListTools
| CallTool (tool : string) (arguments : json).

(** Whether a request is a tool invocation. *)
Definition is_call (r : session_request) : bool :=
  match r with
  | CallTool _ _ => true
  | ListTools => false
  end.

Record StdioServerParameters := {
  command : string;
  args : list string
}.

End Mcp.

(** ** The generation service's types *)

Module Genai.

(** [function_call.args] arrives serialized or already structured. *)
Inductive call_args :=
| ArgsStr (s : string)
| ArgsVal (j : json).

Record FunctionCall := {
  name : string;
  args : call_args
}.

(** A part of a reply; an attribute that is absent, [None] or otherwise
    falsy where the code tests it is [None] here. *)
Record Part := {
  function_call : option FunctionCall;
  text : option string
}.

(** [parts] is [None] when the content has no [parts] attribute or it is
    [None]; [flat_text] is the content's own [text] attribute. *)
Record Content := {
  parts : option (list Part);
  flat_text : option string
}.

Record Candidate := { content : Content }.

(** The units a reply reports, Python ints. *)
Record UsageMetadata := {
  prompt_token_count : Z;
  candidates_token_count : Z
}.

Record GenerateContentResponse := {
  candidates : list Candidate;
  usage_metadata : UsageMetadata
}.

(** An element of [contents]: a plain string, or [json.dumps(j)]. *)
Inductive content_item :=
| Text (s : string)
| JsonDumps (j : json).

(** The arguments of one [generate_content] call; [tools] holds the
    function declarations of the config ([[]] when no config is given). *)
Record GenerateContentRequest := {
  model : string;
  contents : list content_item;
  tools : list json
}.

Definition round_trip : Type :=
  GenerateContentRequest * outcome GenerateContentResponse.

(** [r.candidates[0].content.parts[0]] *)
Definition first_part (r : GenerateContentResponse) : outcome Part :=
  obind (index0 (candidates r)) (fun cand =>
    match parts (content cand) with
    | None => Raise (Exn TypeError "'NoneType' object is not subscriptable")
    | Some ps => index0 ps
    end).

End Genai.

(** ** The file system the local tools of [client2.py] work on *)

Module Fs.

(** An absolute path: its components below the root.  A resolved path
    has no [..] among them; the paths [rglob] builds may. *)
Definition path : Type := list string.

Inductive node :=
| File (data : string)
| Dir.

(** What an operation did to the file system, each with the resolved
    path it reached: opening a file for reading or for writing, creating a
    directory, asking whether an entry exists or is a directory, listing
    the entries of a directory. *)
Inductive access :=
| ReadFile (p : path)
| WriteFile (p : path)
| MakeDir (p : path)
| Probe (p : path)
| ListDir (p : path).

Definition accessed (a : access) : path :=
  match a with
  | ReadFile p | WriteFile p | MakeDir p | Probe p | ListDir p => p
  end.

(** [p.parent]; the root is its own parent. *)
Definition parent (p : path) : path := removelast p.

(** [str(p)] *)
Definition path_str (p : path) : string := "/" +:+ join "/" p.

(** [p.is_relative_to(base)]: the components of [base] start [p]. *)
Fixpoint is_relative_to (p base : path) : bool :=
  match base, p with
  | [], _ => true
  | b :: base', c :: p' => String.eqb b c && is_relative_to p' base'
  | _ :: _, [] => false
  end.

(** The root is a directory whatever the map says. *)
Definition lookup_node (m : gmap path node) (p : path) : option node :=
  match p with
  | [] => Some Dir
  | _ => m !! p
  end.

(** Whether a regular file stands where [p] needs a directory, at one of
    its proper ancestors. *)
Definition below_file (m : gmap path node) (p : path) : bool :=
  existsb (fun n => match lookup_node m (take n p) with
                    | Some (File _) => true
                    | _ => false
                    end)
          (seq 0 (length p)).

(** What opening a missing [p] raises: ENOTDIR below a regular file,
    ENOENT otherwise. *)
Definition missing (m : gmap path node) (p : path) : exn_class :=
  if below_file m p then NotADirectoryError else FileNotFoundError.

(** Where following the components [rest] from [cur] arrives; [..] leads
    to the parent, and to the root from the root. *)
Fixpoint walk (cur : path) (rest : list string) : path :=
  match rest with
  | [] => cur
  | c :: rest' =>
      walk (if String.eqb c ".." then parent cur else cur ++ [c]) rest'
  end.

(** The resolved path of [p]: where the operating system arrives when
    each [..] of [p] follows a directory, as it does in every path the
    selectors of [rglob] build. *)
Definition real (p : path) : path := walk [] p.

(** [p.is_dir()] and [p.exists()] *)
Definition is_dir (m : gmap path node) (p : path) : bool :=
  match lookup_node m (real p) with
  | Some Dir => true
  | _ => false
  end.

Definition exists_at (m : gmap path node) (p : path) : bool :=
  bool_decide (is_Some (lookup_node m (real p))).

(** [os.scandir(d)]: the names and kinds of the entries of [d]. *)
Definition scandir (m : gmap path node) (d : path) : list (string * node) :=
  flat_map (fun kv : path * node =>
              match fst kv with
              | [] => []
              | _ :: _ =>
                  if bool_decide (parent (fst kv) = real d)
                  then [(List.last (fst kv) "", snd kv)] else []
              end)
           (map_to_list m).

(** Every step from [cur] down through [rest] is a directory. *)
Fixpoint dirs_down (m : gmap path node) (cur : path) (rest : list string)
  : bool :=
  match rest with
  | [] => true
  | c :: rest' =>
      match lookup_node m (cur ++ [c]) with
      | Some Dir => dirs_down m (cur ++ [c]) rest'
      | _ => false
      end
  end.

(** The directories in the tree of [d], [d] first: what the walk of the
    recursive wildcard visits, each as [d] followed by the names below
    it.  The order among them is the operating system's. *)
Definition iterate_directories (m : gmap path node) (d : path) : list path :=
  d :: flat_map (fun kv : path * node =>
                   let q := fst kv in
                   let n := length (real d) in
                   if bool_decide (take n q = real d)
                      && (n <? length q)%nat
                      && dirs_down m (real d) (drop n q)
                   then [d ++ drop n q] else [])
                (map_to_list m).

End Fs.
Export Fs.

(** ** The world and the monad of the clients *)

Inductive resource :=
| StdioTransport (params : Mcp.StdioServerParameters)
| Session.

Record World := {
  round_trips : list Genai.round_trip;     (* exchanges with the service, oldest first *)
  session : bool;                          (* [self.session is not None] *)
  session_log : list Mcp.session_request;  (* requests sent to the tool provider *)
  exit_stack : list resource;              (* what [AsyncExitStack] holds *)
  fs : gmap path node;
  fs_log : list access;
  stdout : list string                     (* one entry per [print] *)
}.

Definition M (A : Type) : Type := World -> outcome A * World.

Definition ret {A} (a : A) : M A := fun w => (Return a, w).

Definition raise {A} (e : exn) : M A := fun w => (Raise e, w).

Definition bind {A B} (m : M A) (k : A -> M B) : M B :=
  fun w =>
    match m w with
    | (Return a, w') => k a w'
    | (Raise e, w') => (Raise e, w')
    end.

Definition lift {A} (o : outcome A) : M A := fun w => (o, w).

(** [try: body except Exception as e: handler(e)] *)
Definition try_except {A} (body : M A) (handler : exn -> M A) : M A :=
  fun w =>
    match body w with
    | (Return a, w') => (Return a, w')
    | (Raise e, w') => if is_Exception e then handler e w' else (Raise e, w')
    end.

Declare Scope py_scope.
Delimit Scope py_scope with py.
Notation "x <- m ;; k" := (bind m (fun x => k))
  (at level 100, m at next level, right associativity) : py_scope.
Notation "m ;; k" := (bind m (fun _ => k))
  (at level 100, right associativity) : py_scope.
Local Open Scope py_scope.

Definition print (s : string) : M unit :=
  fun w =>
    (Return tt,
     {| round_trips := round_trips w; session := session w;
        session_log := session_log w; exit_stack := exit_stack w;
        fs := fs w; fs_log := fs_log w; stdout := stdout w ++ [s] |}).

Definition log_round_trip (rt : Genai.round_trip) (w : World) : World :=
  {| round_trips := round_trips w ++ [rt]; session := session w;
     session_log := session_log w; exit_stack := exit_stack w;
     fs := fs w; fs_log := fs_log w; stdout := stdout w |}.

Definition log_session (r : Mcp.session_request) (w : World) : World :=
  {| round_trips := round_trips w; session := session w;
     session_log := session_log w ++ [r]; exit_stack := exit_stack w;
     fs := fs w; fs_log := fs_log w; stdout := stdout w |}.

Definition log_access (a : access) (w : World) : World :=
  {| round_trips := round_trips w; session := session w;
     session_log := session_log w; exit_stack := exit_stack w;
     fs := fs w; fs_log := fs_log w ++ [a]; stdout := stdout w |}.

Definition log_accesses (l : list access) (w : World) : World :=
  {| round_trips := round_trips w; session := session w;
     session_log := session_log w; exit_stack := exit_stack w;
     fs := fs w; fs_log := fs_log w ++ l; stdout := stdout w |}.

Definition set_fs (m : gmap path node) (w : World) : World :=
  {| round_trips := round_trips w; session := session w;
     session_log := session_log w; exit_stack := exit_stack w;
     fs := m; fs_log := fs_log w; stdout := stdout w |}.

Definition push_resource (r : resource) (w : World) : World :=
  {| round_trips := round_trips w; session := session w;
     session_log := session_log w; exit_stack := r :: exit_stack w;
     fs := fs w; fs_log := fs_log w; stdout := stdout w |}.

Definition set_session (b : bool) (w : World) : World :=
  {| round_trips := round_trips w; session := b;
     session_log := session_log w; exit_stack := exit_stack w;
     fs := fs w; fs_log := fs_log w; stdout := stdout w |}.

Definition modify (f : World -> World) : M unit := fun w => (Return tt, f w).

Definition get_world : M World := fun w => (Return w, w).

(** ** The collaborators outside the repository

    The generation service and the tool provider may answer differently
    each time: their answer is a function of everything exchanged so far.
    The remaining fields are library functions. *)

Class Externals := {
  (** [client.models.generate_content] *)
  generate : list Genai.round_trip -> Genai.GenerateContentRequest ->
             outcome Genai.GenerateContentResponse;
  (** [session.list_tools()] and [session.call_tool(name, args)] *)
  provider_tools : list Mcp.session_request -> outcome (list Mcp.Tool);
  provider_call : list Mcp.session_request -> string -> json ->
                  outcome Mcp.CallToolResult;
  (** entering [stdio_client(params)], entering [ClientSession(...)],
      [session.initialize()] *)
  stdio_client : Mcp.StdioServerParameters -> outcome unit;
  client_session : outcome unit;
  session_initialize : outcome unit;
  (** [json.loads], and [str()] / [repr()] of a value inside an f-string *)
  json_loads : string -> outcome json;
  py_repr : json -> string;
  (** [Path(os.path.expanduser(s)).resolve(strict=False)] *)
  resolve : string -> outcome path;
  (** [fnmatch(name, pattern)] as [rglob] applies it to a file name *)
  fnmatch : string -> string -> bool;
  (** whether [data.decode('utf-8')] succeeds; [base64.b64encode] *)
  utf8_valid : string -> bool;
  b64encode : string -> string;
  (** [Path.cwd()] when [client2] was imported *)
  ALLOWED_BASE : path
}.

(** ** Primitive effects *)

Section Primitives.
Context `{Externals}.

(** One round-trip with the generation service. *)
Definition generate_content (req : Genai.GenerateContentRequest)
  : M Genai.GenerateContentResponse :=
  fun w =>
    let r := generate (round_trips w) req in
    (r, log_round_trip (req, r) w).

(** [self.session.list_tools()]; [self.session] is [None] before
    [connect_to_server]. *)
Definition list_tools : M (list Mcp.Tool) :=
  fun w =>
    if session w
    then (provider_tools (session_log w), log_session Mcp.ListTools w)
    else (Raise (Exn AttributeError
                   "'NoneType' object has no attribute 'list_tools'"), w).

(** [self.session.call_tool(name, args)] *)
Definition call_tool (name : string) (args : json) : M Mcp.CallToolResult :=
  fun w =>
    if session w
    then (provider_call (session_log w) name args,
          log_session (Mcp.CallTool name args) w)
    else (Raise (Exn AttributeError
                   "'NoneType' object has no attribute 'call_tool'"), w).

(** [str(v)] inside an f-string: a [str] is inserted as it is. *)
Definition format_value (v : json) : string :=
  match v with
  | JStr s => s
  | _ => py_repr v
  end.

(** [json.loads(raw_args) if isinstance(raw_args, str) else raw_args] *)
Definition normalize_args (a : Genai.call_args) : outcome json :=
  match a with
  | Genai.ArgsStr s => json_loads s
  | Genai.ArgsVal j => Return j
  end.

(** *** [pathlib] on the modelled file system *)

(** [str(e)] of the [OSError] of class [k] about the entry [p] *)
Definition os_error (k : exn_class) (p : path) : exn :=
  Exn k (match k with
         | FileNotFoundError => "[Errno 2] No such file or directory"
         | FileExistsError => "[Errno 17] File exists"
         | NotADirectoryError => "[Errno 20] Not a directory"
         | _ => "[Errno 21] Is a directory"
         end +:+ ": " +:+ py_repr (JStr (path_str p))).

Definition read_bytes (p : path) : M string :=
  modify (log_access (ReadFile p)) ;;
  w <- get_world ;;
  match lookup_node (fs w) p with
  | Some (File data) => ret data
  | Some Dir => raise (os_error IsADirectoryError p)
  | None => raise (os_error (missing (fs w) p) p)
  end.

Definition CR : ascii := "013"%char.

(** What reading in text mode makes of the line ends: CR LF and a lone CR
    become LF. *)
Fixpoint universal_newlines (l : list ascii) : list ascii :=
  match l with
  | [] => []
  | c :: l1 =>
      if Ascii.eqb c CR then
        "010"%char ::
          match l1 with
          | d :: l2 =>
              if Ascii.eqb d "010" then universal_newlines l2
              else universal_newlines l1
          | [] => []
          end
      else c :: universal_newlines l1
  end.

Definition text_mode (data : string) : string :=
  str (universal_newlines (chars data)).

(** [p.read_text(encoding='utf-8')]: the file is opened in text mode. *)
Definition read_text (p : path) : M string :=
  data <- read_bytes p ;;
  if utf8_valid data then ret (text_mode data)
  else raise (Exn UnicodeDecodeError "'utf-8' codec can't decode").

(** [p.exists()] *)
Definition exists_ (p : path) : M bool :=
  modify (log_access (Probe p)) ;;
  w <- get_world ;;
  ret (bool_decide (is_Some (lookup_node (fs w) p))).

(** [p.write_text(data, encoding='utf-8')]: opening for writing needs an
    existing parent directory and leaves the file empty; the data is
    encoded after that, and written as it is (the line end of the host is
    LF). *)
Definition write_text (p : path) (data : string) : M unit :=
  modify (log_access (WriteFile p)) ;;
  w <- get_world ;;
  match lookup_node (fs w) p with
  | Some Dir => raise (os_error IsADirectoryError p)
  | _ =>
      match lookup_node (fs w) (parent p) with
      | Some Dir =>
          if utf8_valid data
          then modify (set_fs (<[p := File data]> (fs w)))
          else
            modify (set_fs (<[p := File ""]> (fs w))) ;;
            raise (Exn UnicodeEncodeError
                     "'utf-8' codec can't encode: surrogates not allowed")
      | Some (File _) => raise (os_error NotADirectoryError p)
      | None => raise (os_error (missing (fs w) p) p)
      end
  end.

(** [p.mkdir(parents=True, exist_ok=True)], walking down from the root:
    an existing directory is passed, a missing one is created, a file in
    the way is an error about [p]. *)
Fixpoint mkdir_walk (cur : path) (todo : list string) : M unit :=
  match todo with
  | [] => ret tt
  | c :: todo' =>
      let q := cur ++ [c] in
      w <- get_world ;;
      match lookup_node (fs w) q with
      | Some Dir => mkdir_walk q todo'
      | Some (File _) =>
          raise (os_error (match todo' with
                           | [] => FileExistsError
                           | _ => NotADirectoryError
                           end) (q ++ todo'))
      | None =>
          modify (log_access (MakeDir q)) ;;
          modify (set_fs (<[q := Dir]> (fs w))) ;;
          mkdir_walk q todo'
      end
  end.

Definition mkdir_parents (p : path) : M unit := mkdir_walk [] p.

(** *** [Path.rglob]

    The pattern is cut at the slashes and each component becomes a
    selector, as [pathlib] of CPython 3.11 does it. *)

(** The components of a pattern: empty ones and [.] are dropped, and a
    pattern that ends in a slash gets an empty last component. *)
Definition pattern_parts (pattern : string) : list string :=
  List.filter (fun x => negb (String.eqb x "") && negb (String.eqb x "."))
              (split "/" pattern)
  ++ (if endswith pattern "/" then [""] else []).

(** [dironly] is set on a selector that has a successor. *)
Inductive selector :=
| Terminating
| Precise (name : string) (dironly : bool) (successor : selector)
| Wildcard (pat : string) (dironly : bool) (successor : selector)
| Recursive (successor : selector).

(** [_is_wildcard_pattern] *)
Definition is_wildcard_pattern (pat : string) : bool :=
  contains "*" pat || contains "?" pat || contains "[" pat.

(** [_make_selector]; a selector without child parts is followed by the
    terminating one. *)
Fixpoint make_selector (pattern_parts : list string) : outcome selector :=
  match pattern_parts with
  | [] => Return Terminating
  | pat :: child_parts =>
      let dironly := match child_parts with [] => false | _ => true end in
      if String.eqb pat "" then Return Terminating
      else if String.eqb pat "**" then
        obind (make_selector child_parts) (fun successor =>
        Return (Recursive successor))
      else if contains "**" pat then
        Raise (Exn ValueError
                 "Invalid pattern: '**' can only be an entire path component")
      else if is_wildcard_pattern pat then
        obind (make_selector child_parts) (fun successor =>
        Return (Wildcard pat dironly successor))
      else
        obind (make_selector child_parts) (fun successor =>
        Return (Precise pat dironly successor))
  end.

(** [_select_from] of each selector on the file system [m]: what it
    asks of the file system, and the paths it yields.  A name is joined
    to the parent as it is, so a [..] stays in the path.  The order of the
    requests among themselves is not kept. *)
Fixpoint select_from (m : gmap path node) (s : selector) (parent_path : path)
  : list access * list path :=
  match s with
  | Terminating => ([], [parent_path])
  | Precise name dironly successor =>
      let path := parent_path ++ [name] in
      let found :=
        if (if dironly then is_dir m path else exists_at m path)
        then select_from m successor path else ([], []) in
      (Probe (real path) :: fst found, snd found)
  | Wildcard pat dironly successor =>
      let entries :=
        List.filter
          (fun entry : string * node =>
             (negb dironly
              || match snd entry with Dir => true | File _ => false end)
             && fnmatch (fst entry) pat)
          (scandir m parent_path) in
      let found :=
        map (fun entry : string * node =>
               select_from m successor (parent_path ++ [fst entry]))
            entries in
      (ListDir (real parent_path) :: flat_map fst found, flat_map snd found)
  | Recursive successor =>
      let starting_points := iterate_directories m parent_path in
      let found := map (select_from m successor) starting_points in
      (map (fun d => ListDir (real d)) starting_points ++ flat_map fst found,
       remove_dups (flat_map snd found))
  end.

(** [p.rglob(pattern)]: the pattern must be relative; nothing is selected
    when [p] is not a directory. *)
Definition rglob (p : path) (pattern : string) : M (list path) :=
  if startswith pattern "/"
  then raise (Exn NotImplementedError "Non-relative patterns are unsupported")
  else
    s <- lift (make_selector ("**" :: pattern_parts pattern)) ;;
    modify (log_access (Probe (real p))) ;;
    w <- get_world ;;
    if is_dir (fs w) p
    then
      let found := select_from (fs w) s p in
      modify (log_accesses (fst found)) ;;
      ret (snd found)
    else ret [].

End Primitives.

(** ** [client2.py]: the client with local file tools *)

Module Client2.
Section Client2.
Context `{Externals}.

Definition normalize_path (file_path : string) : M path :=
  resolved <- lift (resolve file_path) ;;
  if negb (is_relative_to resolved ALLOWED_BASE)
  then raise (Exn PermissionError ("Access denied: " +:+ path_str resolved))
  else ret resolved.

Definition read_file (file_path : string) : M string :=
  path <- normalize_path file_path ;;
  data <- read_bytes path ;;
  if utf8_valid data then ret data else ret (b64encode data).

(** [content] is concatenated to the existing text, which needs a [str]. *)
Definition write_file (file_path : string) (content : json) : M string :=
  path <- normalize_path file_path ;;
  mkdir_parents (parent path) ;;
  there <- exists_ path ;;
  existing <- (if there : bool then read_text path else ret "") ;;
  match content with
  | JStr c =>
      write_text path (existing +:+ c) ;;
      ret "Write successful"
  | _ => raise (Exn TypeError "can only concatenate str to str")
  end.

Definition search_file (extension : json) (search_dir : string)
  : M (list string) :=
  dirp <- normalize_path search_dir ;;
  found <- rglob dirp ("*" +:+ format_value extension) ;;
  ret (map path_str found).

Definition string_param (description : string) : json :=
  JObj [("type", JStr "string"); ("description", JStr description)].

Definition func_schemas : list json :=
  [ JObj [("name", JStr "read_file");
          ("description", JStr "Read the contents of a file");
          ("parameters",
           JObj [("type", JStr "object");
                 ("properties",
                  JObj [("file_path", string_param "Path to the file")]);
                 ("required", JArr [JStr "file_path"])])];
    JObj [("name", JStr "write_file");
          ("description", JStr "Append content to a file");
          ("parameters",
           JObj [("type", JStr "object");
                 ("properties",
                  JObj [("file_path", string_param "Path to the file");
                        ("content", string_param "Content to append")]);
                 ("required", JArr [JStr "file_path"; JStr "content"])])];
    JObj [("name", JStr "search_file");
          ("description", JStr "Search for files by extension");
          ("parameters",
           JObj [("type", JStr "object");
                 ("properties",
                  JObj [("extension", string_param "File extension");
                        ("search_dir", string_param "Directory to search")]);
                 ("required", JArr [JStr "extension"])])] ].

(** *** Calling a tool with the model's arguments as keywords *)

(** [**args] needs a mapping, and every key must name a parameter. *)
Definition kwargs (params : list string) (args : json)
  : outcome (list (string * json)) :=
  match args with
  | JObj kvs =>
      if forallb (fun kv => str_in (fst kv) params) kvs
      then Return kvs
      else Raise (Exn TypeError "got an unexpected keyword argument")
  | _ => Raise (Exn TypeError "argument after ** must be a mapping")
  end.

Definition required_arg (k : string) (kvs : list (string * json))
  : outcome json :=
  match dict_get k kvs with
  | Some v => Return v
  | None => Raise (Exn TypeError "missing 1 required positional argument")
  end.

(** A path parameter reaches [os.path.expanduser], which takes a [str]. *)
Definition path_arg (v : json) : outcome string :=
  match v with
  | JStr s => Return s
  | _ => Raise (Exn TypeError "expected str, bytes or os.PathLike object")
  end.

Definition call_read_file (args : json) : M json :=
  kvs <- lift (kwargs ["file_path"] args) ;;
  fp <- lift (required_arg "file_path" kvs) ;;
  file_path <- lift (path_arg fp) ;;
  r <- read_file file_path ;;
  ret (JStr r).

Definition call_write_file (args : json) : M json :=
  kvs <- lift (kwargs ["file_path"; "content"] args) ;;
  fp <- lift (required_arg "file_path" kvs) ;;
  content <- lift (required_arg "content" kvs) ;;
  file_path <- lift (path_arg fp) ;;
  r <- write_file file_path content ;;
  ret (JStr r).

Definition call_search_file (args : json) : M json :=
  kvs <- lift (kwargs ["extension"; "search_dir"] args) ;;
  extension <- lift (required_arg "extension" kvs) ;;
  search_dir <- lift (path_arg (get "search_dir" (JStr ".") kvs)) ;;
  r <- search_file extension search_dir ;;
  ret (JArr (map JStr r)).

(** *** [GeminiClient.process_query] *)

Definition dispatch (fname : string) (args : json) : M json :=
  if String.eqb fname "read_file" then call_read_file args
  else if String.eqb fname "write_file" then call_write_file args
  else if String.eqb fname "search_file" then call_search_file args
  else ret (JStr ("Unknown function: " +:+ fname)).

Definition follow_up (fname : string) (result : json)
  : Genai.GenerateContentRequest :=
  {| Genai.model := "gemini-2.0-flash";
     Genai.contents :=
       [Genai.JsonDumps (JObj [("name", JStr fname); ("result", result)])];
     Genai.tools := func_schemas |}.

Definition initial (query : string) : Genai.GenerateContentRequest :=
  {| Genai.model := "gemini-1.5-flash";
     Genai.contents := [Genai.Text query];
     Genai.tools := func_schemas |}.

Definition process_query (query : string) : M json :=
  response <- generate_content (initial query) ;;
  let um := Genai.usage_metadata response in
  let prompt_tokens := Genai.prompt_token_count um in
  let resp_tokens := Genai.candidates_token_count um in
  msg <- lift (Genai.first_part response) ;;
  match Genai.function_call msg with
  | Some fc =>
      let fname := Genai.name fc in
      args <- lift (normalize_args (Genai.args fc)) ;;
      print (LF +:+ "[Calling function " +:+ fname +:+ " with args " +:+ py_repr args +:+ "]") ;;
      result <- dispatch fname args ;;
      print (LF +:+ "Results: " +:+ format_value result) ;;
      follow <- generate_content (follow_up fname result) ;;
      let fum := Genai.usage_metadata follow in
      let prompt_tokens := (prompt_tokens + Genai.prompt_token_count fum)%Z in
      let resp_tokens := (resp_tokens + Genai.candidates_token_count fum)%Z in
      part <- lift (Genai.first_part follow) ;;
      ret (result_dict (opt_str (Genai.text part)) prompt_tokens resp_tokens)
  | None =>
      ret (result_dict (opt_str (Genai.text msg)) prompt_tokens resp_tokens)
  end.

End Client2.
End Client2.

(** ** The read-query / print-answer loop shared by the clients *)

Section Report.
Context `{Externals}.

(** The body of the loop after [process_query] returned [out]: print the
    text, then the token line. *)
Definition report (out : json) : M unit :=
  text <- lift (subscript out "text") ;;
  um <- lift (subscript out "usage_metadata") ;;
  p <- lift (subscript um "prompt_token_count") ;;
  r <- lift (subscript um "response_token_count") ;;
  total <- lift (py_add p r) ;;
  print (LF +:+ format_value text) ;;
  print (LF +:+ "[Tokens used: " +:+ format_value total
            +:+ " (prompt " +:+ format_value p
            +:+ ", response " +:+ format_value r +:+ ")]").

(** What [input] raises at the end of the input. *)
Definition eof : exn := Exn EOFError "EOF when reading a line".

(** [q.lower() in ('quit', 'exit')] *)
Definition is_quit (q : string) : bool :=
  str_in (lower q) ["quit"; "exit"].

End Report.

(** ** [client.py]: the client of an MCP tool provider *)

Module Client.
Section Client.
Context `{Externals}.

(** The dispatch at the head of [connect_to_server]. *)
Definition command_and_args (server_script_path : string)
  : outcome (string * list string) :=
  if String.eqb server_script_path "fs-mcp-server"
  then Return ("fs-mcp-server", [])
  else if endswith server_script_path ".py"
  then Return ("python", [server_script_path])
  else if endswith server_script_path ".js"
  then Return ("node", [server_script_path])
  else Raise (Exn ValueError
                "Server script must be a .py, .js, or 'fs-mcp-server'.").

Definition connect_to_server (server_script_path : string) : M unit :=
  ca <- lift (command_and_args server_script_path) ;;
  let server_params :=
    {| Mcp.command := fst ca; Mcp.args := snd ca |} in
  lift (stdio_client server_params) ;;
  modify (push_resource (StdioTransport server_params)) ;;
  lift client_session ;;
  modify (push_resource Session) ;;
  modify (set_session true) ;;
  lift session_initialize ;;
  resp <- list_tools ;;
  print (LF +:+ "Connected to server with tools: "
            +:+ py_repr (JArr (map (fun t => JStr (Mcp.name t)) resp))).

(** *** The schema translation at the head of [process_query] *)

(** One entry of the [properties] comprehension. *)
Definition property (kv : string * json) : outcome (string * json) :=
  obind (py_get (snd kv) "type" (JStr "string")) (fun ty =>
  obind (py_get (snd kv) "description" (JStr "")) (fun descr =>
  Return (fst kv, JObj [("type", ty); ("description", descr)]))).

Definition tool_desc (t : Mcp.Tool) : outcome json :=
  let schema := Mcp.inputSchema t in
  let ty := get "type" (JStr "object") schema in
  obind (py_items (get "properties" (JObj []) schema)) (fun items =>
  obind (omap property items) (fun properties =>
  let required := get "required" (JArr []) schema in
  Return (JObj [("name", JStr (Mcp.name t));
                ("description", Mcp.description t);
                ("parameters",
                 JObj [("type", ty);
                       ("properties", JObj properties);
                       ("required", required)])]))).

Definition tool_descs (tools : list Mcp.Tool) : outcome (list json) :=
  omap tool_desc tools.

(** *** Folding a tool's output into text *)

(** The body of the [try]: decode, then join the items' [text]. *)
Definition joined_items (raw : string) : outcome string :=
  obind (json_loads raw) (fun data =>
  obind (py_iter data) (fun items =>
  obind (omap (fun item => py_get item "text" (JStr "")) items) (fun texts =>
  obind (omap as_str texts) (fun strs =>
  Return (join LF strs))))).

(** [try: ... except: list_result = raw]; the bare [except] catches
    whatever the body raises. *)
Definition list_result (raw : string) : string :=
  match joined_items raw with
  | Return s => s
  | Raise _ => raw
  end.

(** [getattr(tool_response.content[0], 'text', '')] *)
Definition raw_text (tool_response : Mcp.CallToolResult) : outcome string :=
  obind (index0 (Mcp.content tool_response)) (fun item =>
  Return (match Mcp.text item with
          | Some s => s
          | None => ""
          end)).

Definition called (name result : string) : string :=
  "[Called " +:+ name +:+ ": " +:+ result +:+ "]".

(** *** [MCPClient.process_query] *)

(** The branch of a part that carries a function call. *)
Definition run_tool (fc : Genai.FunctionCall) : M string :=
  let name := Genai.name fc in
  args <- lift (normalize_args (Genai.args fc)) ;;
  print (LF +:+ "[Calling tool " +:+ name +:+ " with args "
            +:+ py_repr args +:+ "]") ;;
  tool_response <- call_tool name args ;;
  raw <- lift (raw_text tool_response) ;;
  let result := list_result raw in
  print (LF +:+ "Results: " +:+ result) ;;
  ret (called name result).

(** [for part in parts: ...] *)
Fixpoint process_parts (parts : list Genai.Part) (final_parts : list string)
  : M (list string) :=
  match parts with
  | [] => ret final_parts
  | part :: rest =>
      match Genai.function_call part with
      | Some fc =>
          s <- run_tool fc ;;
          process_parts rest (final_parts ++ [s])
      | None =>
          match Genai.text part with
          | Some t =>
              if String.eqb t "" then process_parts rest final_parts
              else process_parts rest (final_parts ++ [t])
          | None => process_parts rest final_parts
          end
      end
  end.

(** [for cand in response.candidates: ...] *)
Fixpoint process_candidates (cands : list Genai.Candidate)
    (final_parts : list string) : M (list string) :=
  match cands with
  | [] => ret final_parts
  | cand :: rest =>
      match Genai.parts (Genai.content cand) with
      | Some (p :: ps) =>
          fp <- process_parts (p :: ps) final_parts ;;
          process_candidates rest fp
      | _ =>
          match Genai.flat_text (Genai.content cand) with
          | Some text_val =>
              if String.eqb text_val "" then process_candidates rest final_parts
              else process_candidates rest (final_parts ++ [text_val])
          | None => process_candidates rest final_parts
          end
      end
  end.

(** The request of the query; wrapping the declarations in [types.Tool]
    and [GenerateContentConfig] is taken to succeed. *)
Definition request (query : string) (descs : list json)
  : Genai.GenerateContentRequest :=
  {| Genai.model := "gemini-1.5-flash";
     Genai.contents := [Genai.Text query];
     Genai.tools := descs |}.

Definition process_query (query : string) : M json :=
  resp_tools <- list_tools ;;
  descs <- lift (tool_descs resp_tools) ;;
  response <- generate_content (request query descs) ;;
  let um := Genai.usage_metadata response in
  let prompt_tokens := Genai.prompt_token_count um in
  let completion_tokens := Genai.candidates_token_count um in
  final_parts <- process_candidates (Genai.candidates response) [] ;;
  let text := strip (join LF final_parts) in
  ret (result_dict (JStr text) prompt_tokens completion_tokens).

(** [while True: ...] over the lines [input] will deliver; [input]
    writes its prompt first and raises [EOFError] when no line is left. *)
Fixpoint chat_rounds (inputs : list string) : M unit :=
  print (LF +:+ "Query: ") ;;
  match inputs with
  | [] => raise eof
  | line :: rest =>
      let q := strip line in
      if is_quit q then ret tt
      else
        try_except
          (out <- process_query q ;; report out)
          (fun e => print (LF +:+ "Error: " +:+ exn_msg e)) ;;
        chat_rounds rest
  end.

Definition chat_loop (inputs : list string) : M unit :=
  print (LF +:+ "MCP Client Started!") ;;
  print "Type your queries or 'quit' to exit." ;;
  chat_rounds inputs.

End Client.
End Client.

(** ** [client2.py], continued: its chat loop *)

Module Client2Loop.
Section Client2Loop.
Context `{Externals}.

Fixpoint chat_rounds (inputs : list string) : M unit :=
  print (LF +:+ "Query: ") ;;
  match inputs with
  | [] => raise eof
  | line :: rest =>
      let query := strip line in
      if is_quit query then ret tt
      else
        try_except
          (result <- Client2.process_query query ;; report result)
          (fun e => print ("Error: " +:+ exn_msg e)) ;;
        chat_rounds rest
  end.

Definition chat_loop (inputs : list string) : M unit :=
  print (LF +:+ "Gemini Client Started! (Function Calling)") ;;
  print "Type your queries or 'quit' to exit." ;;
  chat_rounds inputs.

End Client2Loop.
End Client2Loop.

(** ** [client3.py]: the client without tools *)

Module Client3.
Section Client3.
Context `{Externals}.

Definition request (query : string) : Genai.GenerateContentRequest :=
  {| Genai.model := "gemini-1.5-flash";
     Genai.contents := [Genai.Text query];
     Genai.tools := [] |}.

Definition process_query (query : string) : M json :=
  response <- generate_content (request query) ;;
  let um := Genai.usage_metadata response in
  let prompt_tokens := Genai.prompt_token_count um in
  let resp_tokens := Genai.candidates_token_count um in
  part <- lift (Genai.first_part response) ;;
  ret (result_dict (opt_str (Genai.text part)) prompt_tokens resp_tokens).

(** No [try] around the query here. *)
Fixpoint chat_rounds (inputs : list string) : M unit :=
  print (LF +:+ "Query: ") ;;
  match inputs with
  | [] => raise eof
  | line :: rest =>
      let query := strip line in
      if is_quit query then ret tt
      else
        result <- process_query query ;;
        report result ;;
        chat_rounds rest
  end.

Definition chat_loop (inputs : list string) : M unit :=
  print (LF +:+ "Simple Chat Client Started! (No Tools)") ;;
  print "Type your queries or 'quit' to exit." ;;
  chat_rounds inputs.

End Client3.
End Client3.

(** ** Reference collaborators

    Executable stand-ins for the collaborators, used to run the clients on
    concrete inputs: a decoder for the JSON subset without floats and
    unicode escapes, [repr], a lexical path resolver for a file system
    without symbolic links, base64, and scripted services. *)

Module Ref.

Definition dq : ascii := "034"%char.
Definition bs : ascii := "092"%char.

Definition is_ws (c : ascii) : bool :=
  let n := nat_of_ascii c in
  ((n =? 32) || (n =? 9) || (n =? 10) || (n =? 13))%nat.

Fixpoint skip_ws (l : list ascii) : list ascii :=
  match l with
  | c :: l' => if is_ws c then skip_ws l' else l
  | [] => []
  end.

Definition digit (c : ascii) : option Z :=
  let n := nat_of_ascii c in
  if ((48 <=? n) && (n <=? 57))%nat then Some (Z.of_nat (n - 48)) else None.

(** The digits at the head of [l], as a number, and the rest. *)
Fixpoint digits (acc : Z) (l : list ascii) : Z * list ascii :=
  match l with
  | c :: l' =>
      match digit c with
      | Some d => digits (10 * acc + d) l'
      | None => (acc, l)
      end
  | [] => (acc, [])
  end.

(** An integer literal: no leading zero, no fraction, no exponent. *)
Definition natural (l : list ascii) : option (Z * list ascii) :=
  match l with
  | c :: l' =>
      match digit c with
      | None => None
      | Some d =>
          let '(n, r) := digits d l' in
          let plain :=
            match r with
            | c' :: _ =>
                negb (Ascii.eqb c' "." || Ascii.eqb c' "e" || Ascii.eqb c' "E")
            | [] => true
            end in
          let leading_zero :=
            (d =? 0)%Z && match l' with
                          | c' :: _ => bool_decide (is_Some (digit c'))
                          | [] => false
                          end in
          if plain && negb leading_zero then Some (n, r) else None
      end
  | [] => None
  end.

Definition unescape (c : ascii) : option ascii :=
  if Ascii.eqb c dq then Some dq
  else if Ascii.eqb c bs then Some bs
  else if Ascii.eqb c "/" then Some "/"%char
  else if Ascii.eqb c "b" then Some "008"%char
  else if Ascii.eqb c "f" then Some "012"%char
  else if Ascii.eqb c "n" then Some "010"%char
  else if Ascii.eqb c "r" then Some "013"%char
  else if Ascii.eqb c "t" then Some "009"%char
  else None.

(** The body of a string literal up to its closing quote. *)
Fixpoint string_body (l : list ascii) : option (list ascii * list ascii) :=
  match l with
  | [] => None
  | c :: l' =>
      if Ascii.eqb c dq then Some ([], l')
      else if Ascii.eqb c bs then
        match l' with
        | e :: l'' =>
            match unescape e, string_body l'' with
            | Some x, Some (s, r) => Some (x :: s, r)
            | _, _ => None
            end
        | [] => None
        end
      else if (nat_of_ascii c <? 32)%nat then None
      else
        match string_body l' with
        | Some (s, r) => Some (c :: s, r)
        | None => None
        end
  end.

Definition keyword (w : string) (v : json) (l : list ascii)
  : option (json * list ascii) :=
  let k := chars w in
  if bool_decide (take (length k) l = k)
  then Some (v, drop (length k) l) else None.

(** Later items of a dict replace earlier ones with the same key. *)
Fixpoint dict_set (k : string) (v : json) (kvs : list (string * json))
  : list (string * json) :=
  match kvs with
  | [] => [(k, v)]
  | (k', v') :: kvs' =>
      if String.eqb k k' then (k, v) :: kvs' else (k', v') :: dict_set k v kvs'
  end.

Fixpoint value (fuel : nat) (l : list ascii) : option (json * list ascii) :=
  match fuel with
  | O => None
  | S fuel' =>
      match skip_ws l with
      | [] => None
      | c :: r =>
          if Ascii.eqb c "n" then keyword "null" JNull (c :: r)
          else if Ascii.eqb c "t" then keyword "true" (JBool true) (c :: r)
          else if Ascii.eqb c "f" then keyword "false" (JBool false) (c :: r)
          else if Ascii.eqb c dq then
            match string_body r with
            | Some (s, r') => Some (JStr (str s), r')
            | None => None
            end
          else if Ascii.eqb c "[" then
            match skip_ws r with
            | c' :: r' =>
                if Ascii.eqb c' "]" then Some (JArr [], r')
                else match elements fuel' r with
                     | Some (vs, r'') => Some (JArr vs, r'')
                     | None => None
                     end
            | [] => None
            end
          else if Ascii.eqb c "{" then
            match skip_ws r with
            | c' :: r' =>
                if Ascii.eqb c' "}" then Some (JObj [], r')
                else match members fuel' [] r with
                     | Some (kvs, r'') => Some (JObj kvs, r'')
                     | None => None
                     end
            | [] => None
            end
          else if Ascii.eqb c "-" then
            match natural r with
            | Some (n, r') => Some (JInt (- n), r')
            | None => None
            end
          else
            match natural (c :: r) with
            | Some (n, r') => Some (JInt n, r')
            | None => None
            end
      end
  end
with elements (fuel : nat) (l : list ascii)
  : option (list json * list ascii) :=
  match fuel with
  | O => None
  | S fuel' =>
      match value fuel' l with
      | None => None
      | Some (v, r) =>
          match skip_ws r with
          | c :: r' =>
              if Ascii.eqb c "," then
                match elements fuel' r' with
                | Some (vs, r'') => Some (v :: vs, r'')
                | None => None
                end
              else if Ascii.eqb c "]" then Some ([v], r')
              else None
          | [] => None
          end
      end
  end
with members (fuel : nat) (acc : list (string * json)) (l : list ascii)
  : option (list (string * json) * list ascii) :=
  match fuel with
  | O => None
  | S fuel' =>
      match skip_ws l with
      | c :: r =>
          if Ascii.eqb c dq then
            match string_body r with
            | None => None
            | Some (k, r1) =>
                match skip_ws r1 with
                | c1 :: r2 =>
                    if Ascii.eqb c1 ":" then
                      match value fuel' r2 with
                      | None => None
                      | Some (v, r3) =>
                          let acc' := dict_set (str k) v acc in
                          match skip_ws r3 with
                          | c3 :: r4 =>
                              if Ascii.eqb c3 "," then members fuel' acc' r4
                              else if Ascii.eqb c3 "}" then Some (acc', r4)
                              else None
                          | [] => None
                          end
                      end
                    else None
                | [] => None
                end
            end
          else None
      | [] => None
      end
  end.

(** [json.loads] on the subset. *)
Definition loads (s : string) : outcome json :=
  match value (S (String.length s)) (chars s) with
  | Some (v, r) =>
      match skip_ws r with
      | [] => Return v
      | _ => Raise (Exn JSONDecodeError "Extra data")
      end
  | None => Raise (Exn JSONDecodeError "Expecting value")
  end.


(** [repr] of a value; a [str] is quoted without escapes. *)
Fixpoint repr (v : json) : string :=
  match v with
  | JNull => "None"
  | JBool true => "True"
  | JBool false => "False"
  | JInt z => NilZero.string_of_int (Z.to_int z)
  | JStr s => "'" +:+ s +:+ "'"
  | JArr l => "[" +:+ join ", " (map repr l) +:+ "]"
  | JObj kvs =>
      "{" +:+ join ", "
                (map (fun kv => "'" +:+ fst kv +:+ "': " +:+ repr (snd kv)) kvs)
          +:+ "}"
  end.

(** Cutting a string at every slash. *)
Fixpoint split_slash (cur : list ascii) (l : list ascii) : list string :=
  match l with
  | [] => [str (rev cur)]
  | c :: l' =>
      if Ascii.eqb c "/" then str (rev cur) :: split_slash [] l'
      else split_slash (c :: cur) l'
  end.

Definition step (p : path) (component : string) : path :=
  if String.eqb component "" || String.eqb component "." then p
  else if String.eqb component ".." then removelast p
  else p ++ [component].

(** [expanduser] then [resolve] where no component is a symbolic link:
    a leading tilde stands for [home], a relative path starts at [cwd]. *)
Definition resolve_lexical (cwd home : path) (s : string) : outcome path :=
  match split_slash [] (chars s) with
  | first :: more =>
      if String.eqb first "~" then Return (fold_left step more home)
      else if String.eqb first "" then Return (fold_left step more [])
      else Return (fold_left step (first :: more) cwd)
  | [] => Return cwd
  end.

(** A file name against a pattern made of one star and a literal. *)
Definition fnmatch_suffix (name pattern : string) : bool :=
  match pattern with
  | String c literal =>
      if Ascii.eqb c "*" then endswith name literal
      else String.eqb name pattern
  | EmptyString => String.eqb name ""
  end.

(** Whether the bytes are UTF-8: one to four bytes a character, no
    overlong form, no surrogate, nothing above U+10FFFF. *)
Fixpoint utf8_bytes (l : list nat) : bool :=
  let cont := fun b => ((128 <=? b) && (b <=? 191))%nat in
  match l with
  | [] => true
  | a :: l1 =>
      if (a <? 128)%nat then utf8_bytes l1
      else
        match l1 with
        | b :: l2 =>
            if ((194 <=? a) && (a <=? 223))%nat then cont b && utf8_bytes l2
            else
              match l2 with
              | c :: l3 =>
                  if ((224 <=? a) && (a <=? 239))%nat then
                    (if (a =? 224)%nat then ((160 <=? b) && (b <=? 191))%nat
                     else if (a =? 237)%nat then ((128 <=? b) && (b <=? 159))%nat
                     else cont b)
                    && cont c && utf8_bytes l3
                  else
                    match l3 with
                    | d :: l4 =>
                        ((240 <=? a) && (a <=? 244))%nat
                        && (if (a =? 240)%nat
                            then ((144 <=? b) && (b <=? 191))%nat
                            else if (a =? 244)%nat
                            then ((128 <=? b) && (b <=? 143))%nat
                            else cont b)
                        && cont c && cont d && utf8_bytes l4
                    | [] => false
                    end
              | [] => false
              end
        | [] => false
        end
  end.

Definition utf8 (data : string) : bool :=
  utf8_bytes (map nat_of_ascii (chars data)).

Definition b64_alphabet : string :=
  "ABCDEFGHIJKLMNOPQRSTUVWXYZabcdefghijklmnopqrstuvwxyz0123456789+/".

Definition sextet (n : nat) : ascii :=
  match String.get n b64_alphabet with
  | Some c => c
  | None => "="%char
  end.

Fixpoint b64_bytes (l : list nat) : list ascii :=
  match l with
  | [] => []
  | [a] =>
      [sextet (a / 4); sextet (a mod 4 * 16); "="%char; "="%char]
  | [a; b] =>
      [sextet (a / 4); sextet (a mod 4 * 16 + b / 16);
       sextet (b mod 16 * 4); "="%char]
  | a :: b :: c :: l' =>
      sextet (a / 4) :: sextet (a mod 4 * 16 + b / 16)
        :: sextet (b mod 16 * 4 + c / 64) :: sextet (c mod 64)
        :: b64_bytes l'
  end.

Definition b64 (data : string) : string :=
  str (b64_bytes (map nat_of_ascii (chars data))).

(** The [n]-th answer of a scripted service. *)
Definition scripted {A} (script : list (outcome A)) (n : nat) : outcome A :=
  nth n script (Raise (Exn ServiceError "no answer scripted")).

(** A service that answers its [n]-th request with the [n]-th of
    [replies], and one that gives the same reply every time. *)
Definition script (replies : list (outcome Genai.GenerateContentResponse))
  : list Genai.round_trip -> Genai.GenerateContentRequest ->
    outcome Genai.GenerateContentResponse :=
  fun history _ => scripted replies (length history).

Definition always (r : outcome Genai.GenerateContentResponse)
  : list Genai.round_trip -> Genai.GenerateContentRequest ->
    outcome Genai.GenerateContentResponse :=
  fun _ _ => r.

(** A world's collaborators: the given service, a provider that lists
    [catalog] and answers its [n]-th call with the [n]-th of [results], and
    a process running in [cwd]. *)
Definition externals
    (service : list Genai.round_trip -> Genai.GenerateContentRequest ->
               outcome Genai.GenerateContentResponse)
    (catalog : list Mcp.Tool)
    (results : list (outcome Mcp.CallToolResult))
    (cwd : path) : Externals :=
  {| generate := service;
     provider_tools := fun _ => Return catalog;
     provider_call := fun history _ _ =>
       scripted results (length (List.filter Mcp.is_call history));
     stdio_client := fun _ => Return tt;
     client_session := Return tt;
     session_initialize := Return tt;
     json_loads := loads;
     py_repr := repr;
     resolve := resolve_lexical cwd ["home"; "user"];
     fnmatch := fnmatch_suffix;
     utf8_valid := utf8;
     b64encode := b64;
     ALLOWED_BASE := cwd |}.

Definition empty_world : World :=
  {| round_trips := []; session := false; session_log := [];
     exit_stack := []; fs := ∅; fs_log := []; stdout := [] |}.

Definition connected_world : World := set_session true empty_world.

(** A reply of one candidate with the given parts. *)
Definition reply (ps : list Genai.Part) (prompt candidates : Z)
  : Genai.GenerateContentResponse :=
  {| Genai.candidates :=
       [{| Genai.content :=
             {| Genai.parts := Some ps; Genai.flat_text := None |} |}];
     Genai.usage_metadata :=
       {| Genai.prompt_token_count := prompt;
          Genai.candidates_token_count := candidates |} |}.

Definition text_part (s : string) : Genai.Part :=
  {| Genai.function_call := None; Genai.text := Some s |}.

Definition call_part (name : string) (args : json) : Genai.Part :=
  {| Genai.function_call :=
       Some {| Genai.name := name; Genai.args := Genai.ArgsVal args |};
     Genai.text := None |}.

(** Tool descriptors: one as a file server would list it, one whose
    parameter metadata is a bare string, one with a kind of its own. *)
Definition plain_tool : Mcp.Tool :=
  {| Mcp.name := "read_file";
     Mcp.description := JStr "Read a file";
     Mcp.inputSchema :=
       [("type", JStr "object");
        ("properties",
         JObj [("path", JObj [("type", JStr "string")]);
               ("encoding", JObj [("description", JStr "Text encoding")])]);
        ("required", JArr [JStr "path"])] |}.

Definition malformed_tool : Mcp.Tool :=
  {| Mcp.name := "stat";
     Mcp.description := JNull;
     Mcp.inputSchema := [("properties", JObj [("path", JStr "string")])] |}.

Definition exotic_tool : Mcp.Tool :=
  {| Mcp.name := "seek";
     Mcp.description := JNull;
     Mcp.inputSchema :=
       [("properties", JObj [("offset", JObj [("type", JStr "uint53")])])] |}.

(** A reply that asks for a tool no client has. *)
Definition insistent : Genai.GenerateContentResponse :=
  reply [call_part "lookup" (JObj [("key", JStr "x")])] 7 3.

(** A reply whose content has no parts, only a flat text. *)
Definition flat_reply (s : string) (prompt candidates : Z)
  : Genai.GenerateContentResponse :=
  {| Genai.candidates :=
       [{| Genai.content :=
             {| Genai.parts := None; Genai.flat_text := Some s |} |}];
     Genai.usage_metadata :=
       {| Genai.prompt_token_count := prompt;
          Genai.candidates_token_count := candidates |} |}.


(** [s] between double quotes *)
Definition quoted (s : string) : string :=
  String dq (s +:+ String dq EmptyString).

(** A tool output listing two files as labeled text items. *)
Definition two_items : string :=
  "[{" +:+ quoted "type" +:+ ": " +:+ quoted "text" +:+ ", "
       +:+ quoted "text" +:+ ": " +:+ quoted "a.py" +:+ "}, {"
       +:+ quoted "text" +:+ ": " +:+ quoted "b.py" +:+ "}]".

Definition text_result (s : string) : Mcp.CallToolResult :=
  {| Mcp.content := [{| Mcp.text := Some s |}]; Mcp.isError := false |}.

(** A world whose file system holds the directory [/srv] and one file. *)
Definition served_world : World :=
  set_fs (<[["srv"; "notes.txt"] := File "abc"]> (<[["srv"] := Dir]> ∅))
    empty_world.


End Ref.

(** ** Vocabulary of the statements *)

(** *** The schema translation *)

Definition is_dict (v : json) : bool :=
  match v with
  | JObj _ => true
  | _ => false
  end.

(** The parameter metadata the translation can read: [properties], when
    present, is a dict and each of its values is a dict. *)
Definition well_shaped (t : Mcp.Tool) : bool :=
  match get "properties" (JObj []) (Mcp.inputSchema t) with
  | JObj props => forallb (fun kv => is_dict (snd kv)) props
  | _ => false
  end.

(** What [property] makes of a parameter whose metadata is a dict. *)
Definition translated (v : json) : json :=
  match v with
  | JObj o => JObj [("type", get "type" (JStr "string") o);
                    ("description", get "description" (JStr "") o)]
  | _ => v
  end.

(** The metadata of parameter [k] in the provider's descriptor. *)
Definition parameter (t : Mcp.Tool) (k : string) : option json :=
  field k (get "properties" (JObj []) (Mcp.inputSchema t)).

(** Reading a function declaration [d]. *)
Fixpoint at_path (ks : list string) (v : json) : option json :=
  match ks with
  | [] => Some v
  | k :: ks' =>
      match field k v with
      | Some x => at_path ks' x
      | None => None
      end
  end.

Definition required_of (d : json) : option json :=
  at_path ["parameters"; "required"] d.

Definition kind_of (d : json) (k : string) : option json :=
  at_path ["parameters"; "properties"; k; "type"] d.

(** [d] declares [t]: same name, same [required] ([[]] when the provider
    gave none), and for every parameter the kind the provider gave, or the
    string kind when it gave none. *)
Definition declares (t : Mcp.Tool) (d : json) : Prop :=
  field "name" d = Some (JStr (Mcp.name t)) /\
  required_of d = Some (get "required" (JArr []) (Mcp.inputSchema t)) /\
  forall k v, parameter t k = Some v ->
    kind_of d k = Some (match field "type" v with
                        | Some ty => ty
                        | None => JStr "string"
                        end).


(** *** Tool output *)

(** A labeled text item: a dict whose [text], when it has one, is a
    [str]; [item_text] is that text (empty when the dict has none). *)
Definition item_text (item : json) : option string :=
  match item with
  | JObj kvs =>
      match get "text" (JStr "") kvs with
      | JStr t => Some t
      | _ => None
      end
  | _ => None
  end.

(** The texts of the items of a list, when each is a labeled text item. *)
Fixpoint item_texts (items : list json) : option (list string) :=
  match items with
  | [] => Some []
  | item :: items' =>
      match item_text item, item_texts items' with
      | Some t, Some ts => Some (t :: ts)
      | _, _ => None
      end
  end.

(** *** Replies *)

(** A [str] that counts when the code tests it: present and not empty. *)
Definition nonempty (o : option string) : list string :=
  match o with
  | Some t => if String.eqb t "" then [] else [t]
  | None => []
  end.

(** The texts [client.py] collects from a reply that asks for no tool:
    per candidate, the texts of its parts, or its flat text when it has no
    parts. *)
Definition candidate_texts (c : Genai.Candidate) : list string :=
  match Genai.parts (Genai.content c) with
  | Some (p :: ps) => flat_map (fun p => nonempty (Genai.text p)) (p :: ps)
  | _ => nonempty (Genai.flat_text (Genai.content c))
  end.

Definition reply_texts (r : Genai.GenerateContentResponse) : list string :=
  flat_map candidate_texts (Genai.candidates r).

Definition calls_of (c : Genai.Candidate) : list Genai.FunctionCall :=
  match Genai.parts (Genai.content c) with
  | Some ps =>
      flat_map (fun p => match Genai.function_call p with
                         | Some fc => [fc]
                         | None => []
                         end) ps
  | None => []
  end.

(** The function calls a reply asks for, in order. *)
Definition requested (r : Genai.GenerateContentResponse)
  : list Genai.FunctionCall :=
  flat_map calls_of (Genai.candidates r).

(** The function calls asked for over a run of round-trips. *)
Definition requested_in (rts : list Genai.round_trip) : nat :=
  list_sum (map (fun rt => match snd rt with
                           | Return r => length (requested r)
                           | Raise _ => 0
                           end) rts).

(** The units the replies of a run of round-trips reported. *)
Definition reported (rts : list Genai.round_trip) : list Genai.UsageMetadata :=
  flat_map (fun rt => match snd rt with
                      | Return r => [Genai.usage_metadata r]
                      | Raise _ => []
                      end) rts.

Definition sum_prompt (us : list Genai.UsageMetadata) : Z :=
  fold_right Z.add 0%Z (map Genai.prompt_token_count us).

Definition sum_response (us : list Genai.UsageMetadata) : Z :=
  fold_right Z.add 0%Z (map Genai.candidates_token_count us).

(** The [usage_metadata] dict of a result for given totals. *)
Definition usage_dict (prompt response : Z) : json :=
  JObj [("prompt_token_count", JInt prompt);
        ("response_token_count", JInt response)].

(** A result made of a text and usage counts and nothing else: no field
    marks it as partial or degraded. *)
Definition plain_result (o : outcome json) : Prop :=
  match o with
  | Return r => keys r = ["text"; "usage_metadata"]
  | Raise _ => True
  end.

(** *** Tool rounds *)

Section ToolRounds.
Context `{Externals}.


End ToolRounds.

(** *** Chat loop *)

(** The world once [input] has written its prompt. *)
Definition prompted (w : World) : World := snd (print (LF +:+ "Query: ") w).

(** *** File access *)

(** [confined base w w']: between [w] and [w'] every recorded access was
    at a path inside [base], and no path outside [base] changed. *)
Definition confined (base : path) (w w' : World) : Prop :=
  exists new,
    fs_log w' = fs_log w ++ new /\
    Forall (fun a => is_relative_to (accessed a) base = true) new /\
    forall p, is_relative_to p base = false -> fs w' !! p = fs w !! p.

(** [confines base m]: [m] is confined to [base] from every world. *)
Definition confines {A} (base : path) (m : M A) : Prop :=
  forall w, confined base w (snd (m w)).


(** No component of [q] is [..]: the path is a resolved one, the name of
    an entry. *)
Definition plain (q : path) : bool :=
  forallb (fun c => negb (String.eqb c "..")) q.

Definition plain_names (m : gmap path node) : Prop :=
  forall q, is_Some (m !! q) -> plain q = true.


(** [q] lies in the tree of [p]: below [p], with a directory at [p] and
    at every step between [p] and [q]. *)
Definition in_tree (m : gmap path node) (p q : path) : Prop :=
  p `prefix_of` q /\ q <> p /\
  forall d, p `prefix_of` d -> d `prefix_of` q -> d <> q ->
            lookup_node m d = Some Dir.


(** *** Effort of a computation *)

(** [spends rt calls m]: whatever the world, [m] adds at most [rt]
    round-trips with the service and at most [calls] tool invocations
    through the session, and leaves the earlier ones in place. *)
Definition spends {A} (rt calls : nat) (m : M A) : Prop :=
  forall w, exists new log,
    round_trips (snd (m w)) = round_trips w ++ new /\
    (length new <= rt)%nat /\
    session_log (snd (m w)) = session_log w ++ log /\
    (length (List.filter Mcp.is_call log) <= calls)%nat /\
    session (snd (m w)) = session w.


(** ** Vocabulary of the further properties *)

(** *** Files *)

(** The text [write_file] finds at [p]: the file's content, or nothing
    when there is no file. *)
Definition text_at (m : gmap path node) (p : path) : string :=
  match m !! p with
  | Some (File d) => d
  | _ => ""
  end.

(** A world like [Ref.served_world] with one more file, whose single byte
    is not UTF-8. *)
Definition blob_world : World :=
  set_fs (<[["srv"; "blob.bin"] := File (String (ascii_of_nat 200) EmptyString)]>
            (fs Ref.served_world))
    Ref.served_world.

(** A world like [Ref.served_world] with a directory [/srv/sub] and, beside
    [/srv], a file [/outside.txt]. *)
Definition nested_world : World :=
  set_fs (<[["outside.txt"] := File "secret"]>
            (<[["srv"; "sub"] := Dir]> (fs Ref.served_world)))
    Ref.served_world.

(** A world like [Ref.served_world] with a file whose lines end in CR LF
    and in CR. *)
Definition dos_world : World :=
  set_fs (<[["srv"; "dos.txt"] :=
              File ("a" +:+ String CR LF +:+ "b" +:+ String CR "c")]>
            (fs Ref.served_world))
    Ref.served_world.

(** The bytes that stand for the lone surrogate U+D800, which
    [json.loads] yields for its escape: a [str] that cannot be encoded. *)
Definition lone_surrogate : string :=
  String (ascii_of_nat 237) (String (ascii_of_nat 160)
    (String (ascii_of_nat 128) EmptyString)).


(** The collaborators of a process running in [/srv] that talks to no
    service. *)
Definition local_externals : Externals :=
  Ref.externals (Ref.script []) [] [] ["srv"].

(** ** [client.py], continued: the life of a client *)

Module Lifecycle.
Section Lifecycle.
Context `{Externals}.

(** Leaving the context of a resource, as [AsyncExitStack] does it when it
    closes; it may raise. *)
Variable release : resource -> outcome unit.

Definition set_exit_stack (stack : list resource) (w : World) : World :=
  {| round_trips := round_trips w; session := session w;
     session_log := session_log w; exit_stack := stack;
     fs := fs w; fs_log := fs_log w; stdout := stdout w |}.

(** [MCPClient()]: no session yet, an empty exit stack. *)
Definition new_client : M unit :=
  modify (fun w => set_session false (set_exit_stack [] w)).

(** The exit stack unwinding: every resource is released, the last entered
    first, also after a release raised; the exception raised last comes
    out in the end. *)
Fixpoint release_all (stack : list resource) (pending : option exn)
  : outcome unit :=
  match stack with
  | [] =>
      match pending with
      | Some e => Raise e
      | None => Return tt
      end
  | r :: rest =>
      match release r with
      | Return _ => release_all rest pending
      | Raise e => release_all rest (Some e)
      end
  end.

(** [await self.exit_stack.aclose()] *)
Definition cleanup : M unit :=
  fun w => (release_all (exit_stack w) None, set_exit_stack [] w).

(** [try: body finally: final]: [final] runs whatever [body] ends in; the
    outcome is [body]'s unless [final] raises. *)
Definition try_finally {A} (body : M A) (final : M unit) : M A :=
  fun w =>
    match body w with
    | (o, w1) =>
        match final w1 with
        | (Return _, w2) => (o, w2)
        | (Raise e, w2) => (Raise e, w2)
        end
    end.

Definition async_main (script_path : string) (inputs : list string) : M unit :=
  new_client ;;
  try_finally
    (Client.connect_to_server script_path ;; Client.chat_loop inputs)
    cleanup.

End Lifecycle.
End Lifecycle.

(** What [connect_to_server] registers for a target. *)
Definition transport_of (ca : string * list string) : resource :=
  StdioTransport {| Mcp.command := fst ca; Mcp.args := snd ca |}.

(** Collaborators whose provider accepts the connection and then fails the
    handshake. *)
Definition failing_handshake : Externals :=
  {| generate := Ref.always (Raise (Exn ServiceError "unavailable"));
     provider_tools := fun _ => Return [];
     provider_call := fun _ _ _ => Raise (Exn ServiceError "closed");
     stdio_client := fun _ => Return tt;
     client_session := Return tt;
     session_initialize := Raise (Exn ServiceError "handshake failed");
     json_loads := Ref.loads;
     py_repr := Ref.repr;
     resolve := Ref.resolve_lexical ["srv"] ["home"; "user"];
     fnmatch := Ref.fnmatch_suffix;
     utf8_valid := Ref.utf8;
     b64encode := Ref.b64;
     ALLOWED_BASE := ["srv"] |}.


(** * Properties *)

(** ** String facts *)

(** A string cannot end in two different suffixes of the same length. *)
Lemma endswith_unique s a b :
  String.length a = String.length b ->
  endswith s a = true -> endswith s b = true -> a = b.
Proof.
  unfold endswith. intros L Ha Hb. rewrite L in Ha.
  apply andb_true_iff in Ha as [_ Ha]. apply andb_true_iff in Hb as [_ Hb].
  apply String.eqb_eq in Ha, Hb. congruence.
Qed.

Section ConnectProofs.
Context `{Externals}.

(** C6.  The dispatch of [connect_to_server]: the alias gives the
    zero-argument command, a path ending in [.py] or [.js] gives the
    interpreter with the path as its only argument, and for any other
    target the call raises [ValueError] with the world as it was: nothing
    entered the exit stack, no transport was opened. *)
Theorem connect_dispatch (target : string) (w : World) :
  (target = "fs-mcp-server" ->
   Client.command_and_args target = Return ("fs-mcp-server", [])) /\
  (endswith target ".py" = true ->
   Client.command_and_args target = Return ("python", [target])) /\
  (endswith target ".js" = true ->
   Client.command_and_args target = Return ("node", [target])) /\
  (target <> "fs-mcp-server" ->
   endswith target ".py" = false -> endswith target ".js" = false ->
   exists msg,
     Client.connect_to_server target w = (Raise (Exn ValueError msg), w)).
Proof.
  unfold Client.command_and_args. repeat split.
  - intros ->. reflexivity.
  - intros Hpy. destruct (String.eqb_spec target "fs-mcp-server") as [-> | _].
    + discriminate Hpy.
    + now rewrite Hpy.
  - intros Hjs. destruct (String.eqb_spec target "fs-mcp-server") as [-> | _].
    + discriminate Hjs.
    + destruct (endswith target ".py") eqn:Hpy.
      * pose proof (endswith_unique target ".py" ".js" eq_refl Hpy Hjs).
        discriminate.
      * now rewrite Hjs.
  - intros Hne Hpy Hjs. eexists.
    unfold Client.connect_to_server, Client.command_and_args, bind, lift.
    destruct (String.eqb_spec target "fs-mcp-server") as [-> | _];
      [congruence |].
    rewrite Hpy, Hjs. reflexivity.
Qed.

End ConnectProofs.

Lemma connect_dispatch_witness :
  let E := Ref.externals (Ref.script []) [] [] ["srv"] in
  Client.command_and_args "fs-mcp-server" = Return ("fs-mcp-server", []) /\
  Client.command_and_args "server.py" = Return ("python", ["server.py"]) /\
  Client.command_and_args "index.js" = Return ("node", ["index.js"]) /\
  exists msg,
    @Client.connect_to_server E "tool.rb" Ref.empty_world
    = (Raise (Exn ValueError msg), Ref.empty_world).
Proof.
  intros E.
  destruct (@connect_dispatch E "fs-mcp-server" Ref.empty_world) as [Ha _].
  destruct (@connect_dispatch E "server.py" Ref.empty_world) as (_ & Hpy & _).
  destruct (@connect_dispatch E "index.js" Ref.empty_world) as (_ & _ & Hjs & _).
  destruct (@connect_dispatch E "tool.rb" Ref.empty_world) as (_ & _ & _ & Hrb).
  split; [apply Ha; reflexivity |].
  split; [apply Hpy; reflexivity |].
  split; [apply Hjs; reflexivity |].
  apply Hrb; [discriminate | reflexivity | reflexivity].
Defined.

(** ** The schema translation *)

Lemma dict_get_map_values (g : json -> json) k (l : list (string * json)) :
  dict_get k (map (fun kv => (fst kv, g (snd kv))) l) = g <$> dict_get k l.
Proof.
  induction l as [| [k' v] l IH]; simpl; [reflexivity |].
  destruct (String.eqb k k'); [reflexivity | exact IH].
Qed.

Lemma omap_property props :
  forallb (fun kv => is_dict (snd kv)) props = true ->
  omap Client.property props
  = Return (map (fun kv => (fst kv, translated (snd kv))) props).
Proof.
  intros Hd. induction props as [| [k v] props IH]; simpl in *; [reflexivity |].
  apply andb_true_iff in Hd as [Hv Hd].
  destruct v; try discriminate Hv. simpl. now rewrite (IH Hd).
Qed.

Lemma tool_desc_declares t :
  well_shaped t = true ->
  exists d, Client.tool_desc t = Return d /\ declares t d.
Proof.
  unfold well_shaped, Client.tool_desc. intros Hw.
  destruct (get "properties" (JObj []) (Mcp.inputSchema t)) as [| | | | |props] eqn:Hp;
    try discriminate Hw.
  simpl. rewrite (omap_property props Hw). simpl.
  eexists. split; [reflexivity |].
  repeat split.
  intros k v Hk. unfold parameter in Hk. rewrite Hp in Hk. simpl in Hk.
  unfold kind_of. simpl. rewrite dict_get_map_values, Hk. simpl.
  apply forallb_forall with (x := (k, v)) in Hw.
  - destruct v; try discriminate Hw. simpl. unfold get.
    now destruct (dict_get "type" kvs).
  - clear -Hk. induction props as [| [k' v'] props IH]; simpl in *; [discriminate |].
    destruct (String.eqb_spec k k') as [-> | _]; [left; congruence | right; auto].
Qed.

(** C3, as the code has it.  On a catalog whose parameter metadata is made
    of dicts the translation succeeds, and each descriptor gets a
    declaration with its name, its [required] entry as given ([[]] when
    absent) and, per parameter, the kind given, or the string kind when
    none is given. *)
Theorem tool_descs_declares (tools : list Mcp.Tool) :
  forallb well_shaped tools = true ->
  exists descs, Client.tool_descs tools = Return descs /\
                Forall2 declares tools descs.
Proof.
  unfold Client.tool_descs.
  induction tools as [| t tools IH]; simpl; intros Hw.
  - exists []. split; [reflexivity | constructor].
  - apply andb_true_iff in Hw as [Ht Hw].
    destruct (tool_desc_declares t Ht) as (d & -> & Hd).
    destruct (IH Hw) as (ds & -> & Hds).
    exists (d :: ds). split; [reflexivity | now constructor].
Qed.

Lemma tool_descs_declares_witness :
  exists descs, Client.tool_descs [Ref.plain_tool] = Return descs /\
                Forall2 declares [Ref.plain_tool] descs.
Proof. apply (tool_descs_declares [Ref.plain_tool]). reflexivity. Defined.

(** C3 as stated fails: a parameter whose metadata is not a dict makes the
    translation raise, and a kind the translation does not know is carried
    over, not replaced by the string kind. *)
Lemma tool_descs_not_total :
  Client.tool_descs [Ref.plain_tool; Ref.malformed_tool]
  = Raise (Exn AttributeError "object has no attribute 'get'") /\
  exists d, Client.tool_descs [Ref.exotic_tool] = Return [d] /\
            kind_of d "offset" = Some (JStr "uint53").
Proof. split; [reflexivity | eexists; split; reflexivity]. Qed.

(** ** Folding a tool's output *)

Lemma item_texts_some items : forall texts,
  item_texts items = Some texts ->
  Forall2 (fun i t => item_text i = Some t) items texts.
Proof.
  induction items as [| i items IH]; intros texts; simpl.
  - intros [= <-]. constructor.
  - destruct (item_text i) as [t |] eqn:Hi; [| discriminate].
    destruct (item_texts items) as [ts |]; [| discriminate].
    intros [= <-]. constructor; auto.
Qed.

Lemma item_texts_none items :
  item_texts items = None -> Exists (fun i => item_text i = None) items.
Proof.
  induction items as [| i items IH]; simpl; [discriminate |].
  destruct (item_text i) as [t |] eqn:Hi; [| intros _; now left].
  destruct (item_texts items) as [ts |]; [discriminate |].
  intros _. right. now apply IH.
Qed.

Lemma code_points_nonempty c l : code_points (c :: l) <> [].
Proof.
  simpl. destruct (code_points l) as [| [| d g] gs]; try discriminate.
  destruct (continuation d); discriminate.
Qed.

Section ToolOutput.
Context `{Externals}.

Lemma texts_of_items items texts :
  Forall2 (fun i t => item_text i = Some t) items texts ->
  exists vs,
    omap (fun item => py_get item "text" (JStr "")) items = Return vs /\
    omap as_str vs = Return texts.
Proof.
  induction 1 as [| i t items texts Hi _ (vs & Hg & Hs)]; simpl.
  - exists []. split; reflexivity.
  - destruct i as [| | | | | kvs]; try discriminate Hi. simpl in *.
    destruct (get "text" (JStr "") kvs) as [| | | s | |] eqn:Hget;
      try discriminate Hi.
    injection Hi as <-. rewrite Hg.
    exists (JStr s :: vs). split; [reflexivity |]. simpl. now rewrite Hs.
Qed.

Lemma no_texts_of_items items :
  Exists (fun i => item_text i = None) items ->
  forall vs,
    omap (fun item => py_get item "text" (JStr "")) items = Return vs ->
    exists e, omap as_str vs = Raise e.
Proof.
  induction 1 as [i items Hi | i items _ IH]; intros vs Hvs; simpl in Hvs.
  - destruct i as [| | | | | kvs]; try discriminate Hvs. simpl in *.
    destruct (omap _ items) as [vs' |]; [| discriminate Hvs].
    injection Hvs as <-. simpl.
    destruct (get "text" (JStr "") kvs); try discriminate Hi; simpl; eauto.
  - destruct (py_get i "text" (JStr "")) as [v |]; [| discriminate Hvs].
    destruct (omap _ items) as [vs' |] eqn:Hvs'; [| discriminate Hvs].
    injection Hvs as <-. destruct (IH vs' eq_refl) as [e He]. simpl.
    destruct (as_str v); [rewrite He |]; eauto.
Qed.

(** What [client.py] makes of a raw tool output, for every output.  When
    the output decodes to a list of labeled text items, the join of their
    texts by line feeds.  When decoding raises, when the decoded value is a
    number, a bool or [None], when it is a list with an item that is no
    labeled text item, when it is a dict with a key or a [str] with a
    character (neither has a [get]), the raw output itself.  When it
    decodes to an empty dict or an empty [str], which yield no item, the
    empty text. *)
Theorem list_result_cases (raw : string) :
  Client.list_result raw
  = match json_loads raw with
    | Return (JArr items) =>
        match item_texts items with
        | Some texts => join LF texts
        | None => raw
        end
    | Return (JObj []) => ""
    | Return (JStr EmptyString) => ""
    | _ => raw
    end.
Proof.
  unfold Client.list_result, Client.joined_items.
  destruct (json_loads raw) as [[| b | z | s | items | kvs] | e]; simpl;
    try reflexivity.
  - destruct s as [| c s]; [reflexivity |].
    change (chars (String c s)) with (c :: chars s).
    pose proof (code_points_nonempty c (chars s)) as Hne.
    destruct (code_points (c :: chars s)) as [| g gs]; [contradiction |].
    reflexivity.
  - destruct (item_texts items) as [texts |] eqn:Htexts.
    + destruct (texts_of_items items texts (item_texts_some _ _ Htexts))
        as (vs & -> & Hs).
      simpl. now rewrite Hs.
    + destruct (omap _ items) as [vs |] eqn:Hvs; [| reflexivity]. simpl.
      destruct (no_texts_of_items items (item_texts_none _ Htexts) vs Hvs)
        as [e ->].
      reflexivity.
  - destruct kvs as [| [k v] kvs]; reflexivity.
Qed.

End ToolOutput.

(** C8 at a tool whose output is an empty JSON object: the output is not
    a list of labeled text items, yet the raw output is not used; the
    answer of [process_query] carries nothing of it.  An output that is no
    JSON at all is folded as it is. *)
Theorem empty_output_lost :
  let reply := Ref.reply [Ref.call_part "stat" (JObj [])] 4 2 in
  let E := fun raw =>
    Ref.externals (Ref.script [Return reply]) [] [Return (Ref.text_result raw)]
      ["srv"] in
  @Client.list_result (E "{}") "{}" = "" /\
  fst (@Client.process_query (E "{}") "stat it" Ref.connected_world)
  = Return (result_dict (JStr "[Called stat: ]") 4 2) /\
  fst (@Client.process_query (E "{ }x") "stat it" Ref.connected_world)
  = Return (result_dict (JStr "[Called stat: { }x]") 4 2).
Proof.
  intros reply E. split; [reflexivity |]. split; vm_compute; reflexivity.
Qed.

(** ** Effort of the primitives and of the file tools *)

Lemma bind_returns {A B} (m : M A) (k : A -> M B) w b w' :
  bind m k w = (Return b, w') ->
  exists a w1, m w = (Return a, w1) /\ k a w1 = (Return b, w').
Proof.
  unfold bind. destruct (m w) as [[a | e] w1]; [eauto | discriminate].
Qed.

Lemma lift_returns {A} (o : outcome A) w a w' :
  lift o w = (Return a, w') -> o = Return a /\ w' = w.
Proof. unfold lift. intros [= -> ->]. auto. Qed.

Lemma spends_weaken {A} (m : M A) rt calls rt' calls' :
  (rt <= rt')%nat -> (calls <= calls')%nat ->
  spends rt calls m -> spends rt' calls' m.
Proof.
  intros Hrt Hc Hm w. destruct (Hm w) as (new & log & ? & ? & ? & ? & ?).
  exists new, log. repeat split; auto; lia.
Qed.

Lemma spends_bind {A B} (m : M A) (k : A -> M B) rt calls rt' calls' :
  spends rt calls m -> (forall a, spends rt' calls' (k a)) ->
  spends (rt + rt') (calls + calls') (bind m k).
Proof.
  intros Hm Hk w. unfold bind.
  destruct (Hm w) as (new & log & Hrt & Hn & Hlog & Hc & Hs).
  destruct (m w) as [[a | e] w1]; simpl in *.
  - destruct (Hk a w1) as (new' & log' & Hrt' & Hn' & Hlog' & Hc' & Hs').
    exists (new ++ new'), (log ++ log').
    rewrite Hrt', Hrt, Hlog', Hlog, Hs', Hs, !app_assoc.
    rewrite List.filter_app, !length_app. repeat split; auto; lia.
  - exists new, log. repeat split; auto; lia.
Qed.

(** The usual case: a step that talks to nobody, then the rest. *)
Lemma spends_then {A B} (m : M A) (k : A -> M B) rt calls :
  spends 0 0 m -> (forall a, spends rt calls (k a)) -> spends rt calls (bind m k).
Proof. intros Hm Hk. apply (spends_bind m k 0 0 rt calls Hm Hk). Qed.

Lemma spends_quiet {A} (m : M A) :
  (forall w, round_trips (snd (m w)) = round_trips w /\
             session_log (snd (m w)) = session_log w /\
             session (snd (m w)) = session w) ->
  spends 0 0 m.
Proof.
  intros Hm w. destruct (Hm w) as (Hrt & Hlog & Hs).
  exists [], []. rewrite !app_nil_r. repeat split; auto.
Qed.

Lemma spends_ret {A} (a : A) : spends 0 0 (ret a).
Proof. apply spends_quiet. auto. Qed.

Lemma spends_raise {A} e : spends 0 0 (@raise A e).
Proof. apply spends_quiet. auto. Qed.

Lemma spends_lift {A} (o : outcome A) : spends 0 0 (lift o).
Proof. apply spends_quiet. auto. Qed.

Lemma spends_get_world : spends 0 0 get_world.
Proof. apply spends_quiet. auto. Qed.

Lemma spends_print s : spends 0 0 (print s).
Proof. apply spends_quiet. auto. Qed.

Lemma spends_log_access a : spends 0 0 (modify (log_access a)).
Proof. apply spends_quiet. auto. Qed.

Lemma spends_set_fs m : spends 0 0 (modify (set_fs m)).
Proof. apply spends_quiet. auto. Qed.

Create HintDb effort discriminated.
#[export] Hint Resolve spends_ret spends_raise spends_lift spends_get_world
  spends_print spends_log_access spends_set_fs : effort.

(** Steps through a computation that talks to nobody. *)
Ltac quiet :=
  repeat first
    [ progress auto with effort
    | apply spends_then; [| intro]
    | match goal with
      | |- spends _ _ (match ?x with _ => _ end) => destruct x
      | |- spends _ _ (if ?x then _ else _) => destruct x
      end ].

Section Effort.
Context `{Externals}.

Lemma spends_generate_content req : spends 1 0 (generate_content req).
Proof.
  intros w. exists [(req, generate (round_trips w) req)], [].
  rewrite app_nil_r. repeat split; auto.
Qed.

Lemma spends_list_tools : spends 0 0 list_tools.
Proof.
  intros w. unfold list_tools. destruct (session w) eqn:Hs; simpl.
  - exists [], [Mcp.ListTools]. rewrite app_nil_r. repeat split; auto.
  - exists [], []. rewrite !app_nil_r. repeat split; auto.
Qed.

Lemma spends_call_tool name args : spends 0 1 (call_tool name args).
Proof.
  intros w. unfold call_tool. destruct (session w) eqn:Hs; simpl.
  - exists [], [Mcp.CallTool name args]. rewrite app_nil_r. repeat split; auto.
  - exists [], []. rewrite !app_nil_r. repeat split; auto.
Qed.

Lemma spends_read_bytes p : spends 0 0 (read_bytes p).
Proof. unfold read_bytes. quiet. Qed.

Lemma spends_read_text p : spends 0 0 (read_text p).
Proof. unfold read_text. apply spends_then; [apply spends_read_bytes |]. intro. quiet. Qed.

Lemma spends_exists p : spends 0 0 (exists_ p).
Proof. unfold exists_. quiet. Qed.

Lemma spends_write_text p data : spends 0 0 (write_text p data).
Proof. unfold write_text. quiet. Qed.

Lemma spends_mkdir_walk todo : forall cur, spends 0 0 (mkdir_walk cur todo).
Proof.
  induction todo as [| c todo IH]; intros cur; simpl; [auto with effort |].
  apply spends_then; [auto with effort |]. intros w.
  destruct (lookup_node (fs w) (cur ++ [c])) as [[data |] |].
  - auto with effort.
  - apply IH.
  - apply spends_then; [auto with effort |]. intro.
    apply spends_then; [auto with effort |]. intro. apply IH.
Qed.

Lemma spends_rglob p pattern : spends 0 0 (rglob p pattern).
Proof. unfold rglob. quiet. Qed.

Lemma spends_normalize_path file_path :
  spends 0 0 (Client2.normalize_path file_path).
Proof. unfold Client2.normalize_path. quiet. Qed.

Lemma spends_read_file file_path : spends 0 0 (Client2.read_file file_path).
Proof.
  unfold Client2.read_file.
  apply spends_then; [apply spends_normalize_path |]. intro.
  apply spends_then; [apply spends_read_bytes |]. intro. quiet.
Qed.

Lemma spends_write_file file_path content :
  spends 0 0 (Client2.write_file file_path content).
Proof.
  unfold Client2.write_file.
  apply spends_then; [apply spends_normalize_path |]. intro.
  apply spends_then; [apply spends_mkdir_walk |]. intro.
  apply spends_then; [apply spends_exists |]. intros there.
  apply spends_then.
  { destruct there; [apply spends_read_text | auto with effort]. }
  intro existing. destruct content; auto with effort.
  apply spends_then; [apply spends_write_text |]. intro. auto with effort.
Qed.

Lemma spends_search_file extension search_dir :
  spends 0 0 (Client2.search_file extension search_dir).
Proof.
  unfold Client2.search_file.
  apply spends_then; [apply spends_normalize_path |]. intro.
  apply spends_then; [apply spends_rglob |]. intro. auto with effort.
Qed.

(** The local tools talk neither to the service nor to a session. *)
Lemma spends_dispatch fname args : spends 0 0 (Client2.dispatch fname args).
Proof.
  unfold Client2.dispatch, Client2.call_read_file, Client2.call_write_file,
    Client2.call_search_file.
  repeat match goal with
         | |- spends _ _ (if ?x then _ else _) => destruct x
         end; auto with effort;
    repeat (apply spends_then; [solve [auto with effort] | intro]).
  - apply spends_then; [apply spends_read_file | intro; auto with effort].
  - apply spends_then; [apply spends_write_file | intro; auto with effort].
  - apply spends_then; [apply spends_search_file | intro; auto with effort].
Qed.

End Effort.

(** ** Effort of [process_query] *)

Section QueryEffort.
Context `{Externals}.

Lemma spends_process_query2 query : spends 2 0 (Client2.process_query query).
Proof.
  unfold Client2.process_query.
  apply (spends_bind _ _ 1 0 1 0); [apply spends_generate_content |].
  intros response. apply spends_then; [auto with effort |]. intros msg.
  destruct (Genai.function_call msg) as [fc |].
  - apply spends_then; [auto with effort |]. intros args.
    apply spends_then; [auto with effort |]. intros _.
    apply spends_then; [apply spends_dispatch |]. intros result.
    apply spends_then; [auto with effort |]. intros _.
    apply (spends_bind _ _ 1 0 0 0); [apply spends_generate_content |].
    intros follow. apply spends_then; auto with effort.
  - apply (spends_weaken _ 0 0); auto with effort.
Qed.

Lemma spends_process_query3 query : spends 1 0 (Client3.process_query query).
Proof.
  unfold Client3.process_query.
  apply (spends_bind _ _ 1 0 0 0); [apply spends_generate_content |].
  intros response. apply spends_then; auto with effort.
Qed.

Lemma spends_run_tool fc : spends 0 1 (Client.run_tool fc).
Proof.
  unfold Client.run_tool.
  apply spends_then; [auto with effort |]. intros args.
  apply spends_then; [auto with effort |]. intros _.
  apply (spends_bind _ _ 0 1 0 0); [apply spends_call_tool |].
  intros response. apply spends_then; [auto with effort |]. intros raw.
  apply spends_then; auto with effort.
Qed.

Lemma spends_process_parts ps :
  forall acc,
    spends 0 (length (calls_of {| Genai.content :=
                                    {| Genai.parts := Some ps;
                                       Genai.flat_text := None |} |}))
           (Client.process_parts ps acc).
Proof.
  unfold calls_of. simpl.
  induction ps as [| p ps IH]; intros acc; simpl; [auto with effort |].
  destruct (Genai.function_call p) as [fc |]; simpl.
  - apply (spends_bind _ _ 0 1 0 _); [apply spends_run_tool |].
    intros s. apply IH.
  - destruct (Genai.text p) as [t |]; [destruct (String.eqb t "") |]; apply IH.
Qed.

Lemma spends_process_candidates cands :
  forall acc,
    spends 0 (length (flat_map calls_of cands))
           (Client.process_candidates cands acc).
Proof.
  induction cands as [| c cands IH]; intros acc; simpl; [auto with effort |].
  rewrite length_app.
  pose proof (spends_process_parts) as Hparts.
  unfold calls_of at 1. unfold calls_of in Hparts. simpl in Hparts.
  destruct (Genai.parts (Genai.content c)) as [[| p ps] |].
  - destruct (Genai.flat_text (Genai.content c)) as [t |];
      [destruct (String.eqb t "") |]; apply IH.
  - apply (spends_bind _ _ 0 _ 0 _); [apply (Hparts (p :: ps) acc) |].
    intros fp. apply IH.
  - destruct (Genai.flat_text (Genai.content c)) as [t |];
      [destruct (String.eqb t "") |]; apply IH.
Qed.

(** [client.py]: one round-trip at most, and no more tool invocations than
    the reply of that round-trip asked for. *)
Lemma effort_process_query1 query w o w' :
  Client.process_query query w = (o, w') ->
  exists new log,
    round_trips w' = round_trips w ++ new /\
    (length new <= 1)%nat /\
    session_log w' = session_log w ++ log /\
    (length (List.filter Mcp.is_call log) <= requested_in new)%nat.
Proof.
  intros E. unfold Client.process_query, bind at 1 in E.
  destruct (spends_list_tools w) as (n0 & l0 & Hrt0 & Hn0 & Hlog0 & Hc0 & _).
  destruct n0; [| simpl in Hn0; lia]. rewrite app_nil_r in Hrt0.
  destruct (list_tools w) as [[tools | e] w1]; simpl in Hrt0, Hlog0.
  2:{ injection E as <- <-. exists [], l0. rewrite app_nil_r.
      repeat split; auto; simpl; lia. }
  unfold bind at 1, lift at 1 in E.
  destruct (Client.tool_descs tools) as [descs | e].
  2:{ injection E as <- <-. exists [], l0. rewrite app_nil_r.
      repeat split; auto; simpl; lia. }
  unfold bind at 1, generate_content at 1 in E.
  set (req := Client.request query descs) in E.
  destruct (generate (round_trips w1) req) as [response | e] eqn:Hgen.
  2:{ injection E as <- <-. exists [(req, Raise e)], l0. simpl.
      rewrite Hrt0, Hlog0. repeat split; auto; simpl; lia. }
  set (w2 := log_round_trip (req, Return response) w1) in E.
  destruct (spends_process_candidates (Genai.candidates response) [] w2)
    as (n1 & l1 & Hrt1 & Hn1 & Hlog1 & Hc1 & _).
  destruct n1; [| simpl in Hn1; lia]. rewrite app_nil_r in Hrt1.
  unfold bind in E.
  destruct (Client.process_candidates (Genai.candidates response) [] w2)
    as [[fp | e] w3]; simpl in *; injection E as <- <-;
    exists [(req, Return response)], (l0 ++ l1);
    rewrite Hrt1, Hlog1, Hrt0, Hlog0, app_assoc, List.filter_app, length_app;
    unfold requested_in, requested; simpl; repeat split; auto; lia.
Qed.

Lemma plain_bind {A} (m : M A) (k : A -> M json) w :
  (forall a w1, plain_result (fst (k a w1))) ->
  plain_result (fst (bind m k w)).
Proof.
  intros Hk. unfold bind. destruct (m w) as [[a | e] w1]; simpl; auto.
Qed.

Lemma plain_process_query2 query w :
  plain_result (fst (Client2.process_query query w)).
Proof.
  unfold Client2.process_query.
  do 2 (apply plain_bind; intros).
  destruct (Genai.function_call _); [| reflexivity].
  repeat (apply plain_bind; intros). reflexivity.
Qed.

Lemma plain_process_query3 query w :
  plain_result (fst (Client3.process_query query w)).
Proof.
  unfold Client3.process_query.
  repeat (apply plain_bind; intros). reflexivity.
Qed.

Lemma plain_process_query1 query w :
  plain_result (fst (Client.process_query query w)).
Proof.
  unfold Client.process_query.
  repeat (apply plain_bind; intros). reflexivity.
Qed.

(** C1, as the code has it.  No client loops over replies, so
    [process_query] always comes back: [client2.py] after at most two
    round-trips (one tool round at most), [client.py] after at most one
    round-trip and no more tool invocations than that reply carries
    function calls, [client3.py] after at most one round-trip.  A result is
    a text with usage counts and nothing else. *)
Theorem process_query_bounded (query : string) (w : World) :
  (exists new,
      round_trips (snd (Client2.process_query query w)) = round_trips w ++ new /\
      (length new <= 2)%nat /\
      plain_result (fst (Client2.process_query query w))) /\
  (exists new log,
      round_trips (snd (Client.process_query query w)) = round_trips w ++ new /\
      (length new <= 1)%nat /\
      session_log (snd (Client.process_query query w)) = session_log w ++ log /\
      (length (List.filter Mcp.is_call log) <= requested_in new)%nat /\
      plain_result (fst (Client.process_query query w))) /\
  (exists new,
      round_trips (snd (Client3.process_query query w)) = round_trips w ++ new /\
      (length new <= 1)%nat /\
      plain_result (fst (Client3.process_query query w))).
Proof.
  split; [| split].
  - destruct (spends_process_query2 query w) as (new & _ & Hrt & Hn & _).
    exists new. auto using plain_process_query2.
  - pose proof (plain_process_query1 query w) as Hplain.
    destruct (Client.process_query query w) as [o w'] eqn:E.
    destruct (effort_process_query1 query w o w' E)
      as (new & log & Hrt & Hn & Hl & Hc).
    exists new, log. auto 6.
  - destruct (spends_process_query3 query w) as (new & _ & Hrt & Hn & _).
    exists new. auto using plain_process_query3.
Qed.

End QueryEffort.

(** C1 as stated fails.  With a service that asks for a tool in every
    reply, [client2.py] stops after the second reply and returns that
    reply's text attribute, which a function-call part leaves at [None],
    next to the usage counts: no best-effort text, and no field that marks
    the result as partial. *)
Lemma no_degraded_indication :
  let E := Ref.externals (Ref.always (Return Ref.insistent)) [] [] ["srv"] in
  exists r w',
    Client2.process_query "list files" Ref.empty_world = (Return r, w') /\
    length (round_trips w') = 2%nat /\
    field "text" r = Some JNull /\
    keys r = ["text"; "usage_metadata"].
Proof.
  intros E. eexists. eexists.
  split; [vm_compute; reflexivity |]. repeat split.
Qed.

(** ** Usage accounting *)

Lemma sum_prompt_perm us us' :
  Permutation us us' -> sum_prompt us = sum_prompt us'.
Proof.
  unfold sum_prompt. induction 1; simpl; lia.
Qed.

Lemma sum_response_perm us us' :
  Permutation us us' -> sum_response us = sum_response us'.
Proof.
  unfold sum_response. induction 1; simpl; lia.
Qed.

Lemma print_returns s w u w' :
  print s w = (Return u, w') -> round_trips w' = round_trips w.
Proof. unfold print. intros [= _ <-]. reflexivity. Qed.

Section Usage.
Context `{Externals}.

Lemma generate_content_returns req w r w' :
  generate_content req w = (Return r, w') ->
  generate (round_trips w) req = Return r /\
  w' = log_round_trip (req, Return r) w.
Proof.
  unfold generate_content. intros [= Hg <-]. rewrite Hg. auto.
Qed.

Lemma usage_process_query3 query w r w' :
  Client3.process_query query w = (Return r, w') ->
  exists new,
    round_trips w' = round_trips w ++ new /\
    field "usage_metadata" r
    = Some (usage_dict (sum_prompt (reported new)) (sum_response (reported new))).
Proof.
  unfold Client3.process_query. intros E.
  apply bind_returns in E as (resp & w1 & Hg & E).
  apply generate_content_returns in Hg as [_ ->].
  apply bind_returns in E as (part & w2 & Hp & E).
  apply lift_returns in Hp as [_ ->].
  injection E as <- <-.
  exists [(Client3.request query, Return resp)]. split; [reflexivity |].
  unfold sum_prompt, sum_response. simpl. now rewrite !Z.add_0_r.
Qed.

Lemma usage_process_query2 query w r w' :
  Client2.process_query query w = (Return r, w') ->
  exists new,
    round_trips w' = round_trips w ++ new /\
    field "usage_metadata" r
    = Some (usage_dict (sum_prompt (reported new)) (sum_response (reported new))).
Proof.
  unfold Client2.process_query. intros E.
  apply bind_returns in E as (resp & w1 & Hg & E).
  apply generate_content_returns in Hg as [_ ->].
  apply bind_returns in E as (msg & w2 & Hm & E).
  apply lift_returns in Hm as [_ ->].
  destruct (Genai.function_call msg) as [fc |].
  - apply bind_returns in E as (args & w3 & Ha & E).
    apply lift_returns in Ha as [_ ->].
    apply bind_returns in E as (u & w4 & Hp & E).
    apply print_returns in Hp.
    apply bind_returns in E as (result & w5 & Hd & E).
    destruct (spends_dispatch (Genai.name fc) args w4)
      as (n & _ & Hrt & Hn & _).
    rewrite Hd in Hrt. simpl in Hrt.
    destruct n; [| simpl in Hn; lia]. rewrite app_nil_r in Hrt.
    apply bind_returns in E as (u' & w6 & Hp' & E).
    apply print_returns in Hp'.
    apply bind_returns in E as (follow & w7 & Hg & E).
    apply generate_content_returns in Hg as [_ ->].
    apply bind_returns in E as (part & w8 & Hf & E).
    apply lift_returns in Hf as [_ ->].
    injection E as <- <-.
    exists [(Client2.initial query, Return resp);
            (Client2.follow_up (Genai.name fc) result, Return follow)].
    split.
    + simpl. rewrite Hp', Hrt, Hp. simpl. now rewrite <- app_assoc.
    + unfold sum_prompt, sum_response. simpl. now rewrite !Z.add_0_r.
  - injection E as <- <-.
    exists [(Client2.initial query, Return resp)]. split; [reflexivity |].
    unfold sum_prompt, sum_response. simpl. now rewrite !Z.add_0_r.
Qed.

Lemma usage_process_query1 query w r w' :
  Client.process_query query w = (Return r, w') ->
  exists new,
    round_trips w' = round_trips w ++ new /\
    field "usage_metadata" r
    = Some (usage_dict (sum_prompt (reported new)) (sum_response (reported new))).
Proof.
  unfold Client.process_query. intros E.
  apply bind_returns in E as (tools & w1 & Ht & E).
  destruct (spends_list_tools w) as (n0 & _ & Hrt0 & Hn0 & _).
  rewrite Ht in Hrt0. simpl in Hrt0.
  destruct n0; [| simpl in Hn0; lia]. rewrite app_nil_r in Hrt0.
  apply bind_returns in E as (descs & w2 & Hd & E).
  apply lift_returns in Hd as [_ ->].
  apply bind_returns in E as (resp & w3 & Hg & E).
  apply generate_content_returns in Hg as [_ ->].
  apply bind_returns in E as (fp & w4 & Hc & E).
  destruct (spends_process_candidates (Genai.candidates resp) []
              (log_round_trip (Client.request query descs, Return resp) w1))
    as (n1 & _ & Hrt1 & Hn1 & _).
  rewrite Hc in Hrt1. simpl in Hrt1.
  destruct n1; [| simpl in Hn1; lia]. rewrite app_nil_r in Hrt1.
  injection E as <- <-.
  exists [(Client.request query descs, Return resp)]. split.
  - now rewrite Hrt1, Hrt0.
  - unfold sum_prompt, sum_response. simpl. now rewrite !Z.add_0_r.
Qed.

(** C2.  Whichever client answers a query, the usage it returns is the sum
    of the units reported by the replies of the round-trips made for that
    query, in whatever order they are added; round-trips made before the
    query do not count. *)
Theorem usage_is_sum (query : string) (w w' : World) (r : json) :
  Client.process_query query w = (Return r, w') \/
  Client2.process_query query w = (Return r, w') \/
  Client3.process_query query w = (Return r, w') ->
  exists new,
    round_trips w' = round_trips w ++ new /\
    forall us, Permutation us (reported new) ->
      field "usage_metadata" r
      = Some (usage_dict (sum_prompt us) (sum_response us)).
Proof.
  intros E.
  assert (exists new,
             round_trips w' = round_trips w ++ new /\
             field "usage_metadata" r
             = Some (usage_dict (sum_prompt (reported new))
                                (sum_response (reported new))))
    as (new & Hrt & Hsum).
  { destruct E as [E | [E | E]];
      eauto using usage_process_query1, usage_process_query2,
        usage_process_query3. }
  exists new. split; [exact Hrt |]. intros us Hperm.
  now rewrite (sum_prompt_perm _ _ Hperm), (sum_response_perm _ _ Hperm).
Qed.

End Usage.

Lemma usage_is_sum_witness :
  let E := Ref.externals
             (Ref.script [Return Ref.insistent;
                          Return (Ref.reply [Ref.text_part "No such tool."] 12 5)])
             [] [] ["srv"] in
  let w := Ref.empty_world in
  let w' := snd (Client2.process_query "look it up" w) in
  exists new,
    round_trips w' = round_trips w ++ new /\
    forall us, Permutation us (reported new) ->
      field "usage_metadata" (result_dict (JStr "No such tool.") 19 8)
      = Some (usage_dict (sum_prompt us) (sum_response us)).
Proof.
  intros E w w'.
  apply (@usage_is_sum E "look it up" w w'
           (result_dict (JStr "No such tool.") 19 8)).
  right. left. vm_compute. reflexivity.
Defined.

(** ** Replies that ask for no tool *)

Section TextReplies.
Context `{Externals}.

Lemma process_parts_texts ps :
  forall acc w,
    flat_map (fun p => match Genai.function_call p with
                       | Some fc => [fc]
                       | None => []
                       end) ps = [] ->
    Client.process_parts ps acc w
    = (Return (acc ++ flat_map (fun p => nonempty (Genai.text p)) ps), w).
Proof.
  induction ps as [| p ps IH]; intros acc w Hno; simpl.
  - now rewrite app_nil_r.
  - simpl in Hno. destruct (Genai.function_call p); [discriminate Hno |].
    simpl in Hno. unfold nonempty.
    destruct (Genai.text p) as [t |]; [destruct (String.eqb t "") |];
      rewrite (IH _ _ Hno); simpl; try reflexivity.
    now rewrite <- app_assoc.
Qed.

Lemma process_candidates_texts cands :
  forall acc w,
    flat_map calls_of cands = [] ->
    Client.process_candidates cands acc w
    = (Return (acc ++ flat_map candidate_texts cands), w).
Proof.
  induction cands as [| c cands IH]; intros acc w Hno;
    cbn [Client.process_candidates flat_map].
  - unfold ret. now rewrite app_nil_r.
  - simpl in Hno. apply app_eq_nil in Hno as [Hc Hno].
    unfold calls_of in Hc. unfold candidate_texts at 1.
    destruct (Genai.parts (Genai.content c)) as [[| p ps] |].
    + unfold nonempty.
      destruct (Genai.flat_text (Genai.content c)) as [t |];
        [destruct (String.eqb t "") |];
        rewrite (IH _ _ Hno); simpl; try reflexivity.
      now rewrite <- app_assoc.
    + unfold bind. rewrite (process_parts_texts (p :: ps) acc w Hc).
      rewrite (IH _ _ Hno). now rewrite <- app_assoc.
    + unfold nonempty.
      destruct (Genai.flat_text (Genai.content c)) as [t |];
        [destruct (String.eqb t "") |];
        rewrite (IH _ _ Hno); simpl; try reflexivity.
      now rewrite <- app_assoc.
Qed.

(** [client.py] on a reply without function calls. *)
Lemma process_query1_texts query w tools descs resp :
  session w = true ->
  provider_tools (session_log w) = Return tools ->
  Client.tool_descs tools = Return descs ->
  generate (round_trips w) (Client.request query descs) = Return resp ->
  requested resp = [] ->
  Client.process_query query w
  = (Return (result_dict (JStr (strip (join LF (reply_texts resp))))
               (Genai.prompt_token_count (Genai.usage_metadata resp))
               (Genai.candidates_token_count (Genai.usage_metadata resp))),
     log_round_trip (Client.request query descs, Return resp)
       (log_session Mcp.ListTools w)).
Proof.
  intros Hs Ht Hd Hg Hno.
  unfold Client.process_query, bind at 1, list_tools. rewrite Hs, Ht.
  unfold bind at 1, lift. rewrite Hd.
  unfold bind at 1, generate_content. simpl round_trips. rewrite Hg.
  unfold bind. rewrite (process_candidates_texts _ _ _ Hno). reflexivity.
Qed.


End TextReplies.



(** ** Replies without parts *)

Section FlatReplies.
Context `{Externals}.

(** [client.py] reads the flat text of a candidate that has no parts. *)
Lemma flat_text_fallback query w tools descs resp c :
  session w = true ->
  provider_tools (session_log w) = Return tools ->
  Client.tool_descs tools = Return descs ->
  generate (round_trips w) (Client.request query descs) = Return resp ->
  Genai.candidates resp = [c] ->
  Genai.parts (Genai.content c) = None ->
  fst (Client.process_query query w)
  = Return (result_dict
              (JStr (strip (join LF (nonempty (Genai.flat_text (Genai.content c))))))
              (Genai.prompt_token_count (Genai.usage_metadata resp))
              (Genai.candidates_token_count (Genai.usage_metadata resp))).
Proof.
  intros Hs Ht Hd Hg Hc Hp.
  rewrite (process_query1_texts query w tools descs resp Hs Ht Hd Hg).
  - unfold reply_texts, candidate_texts. rewrite Hc. simpl.
    now rewrite Hp, app_nil_r.
  - unfold requested, calls_of. rewrite Hc. simpl. now rewrite Hp.
Qed.

(** [client2.py] and [client3.py] subscript the missing parts. *)
Lemma no_parts_raises query w resp c cs :
  Genai.candidates resp = c :: cs ->
  Genai.parts (Genai.content c) = None ->
  (generate (round_trips w) (Client2.initial query) = Return resp ->
   fst (Client2.process_query query w)
   = Raise (Exn TypeError "'NoneType' object is not subscriptable")) /\
  (generate (round_trips w) (Client3.request query) = Return resp ->
   fst (Client3.process_query query w)
   = Raise (Exn TypeError "'NoneType' object is not subscriptable")).
Proof.
  intros Hc Hp. split; intros Hg.
  - unfold Client2.process_query, bind, generate_content, lift,
      Genai.first_part.
    now rewrite Hg, Hc; simpl; rewrite Hp.
  - unfold Client3.process_query, bind, generate_content, lift,
      Genai.first_part.
    now rewrite Hg, Hc; simpl; rewrite Hp.
Qed.

End FlatReplies.

(** C7 at a reply whose only candidate has a flat text and no parts:
    [client.py] falls back to the flat text, [client2.py] raises
    [TypeError] out of [process_query] after its one round-trip. *)
Theorem reply_without_parts :
  let E := Ref.externals (Ref.script [Return (Ref.flat_reply "hello" 4 2)])
             [] [] ["srv"] in
  fst (Client.process_query "hi" Ref.connected_world)
  = Return (result_dict (JStr "hello") 4 2) /\
  exists w',
    Client2.process_query "hi" Ref.empty_world
    = (Raise (Exn TypeError "'NoneType' object is not subscriptable"), w') /\
    length (round_trips w') = 1%nat.
Proof.
  intros E. split; [reflexivity |].
  eexists. split; [vm_compute; reflexivity | reflexivity].
Qed.

(** ** Tool invocations that fail *)

Section ToolFailures.
Context `{Externals}.




End ToolFailures.



(** ** The chat loops *)

Section ChatLoops.
Context `{Externals}.

(** A quit token ends each loop. *)
Lemma chat_rounds_quit line rest w :
  is_quit (strip line) = true ->
  Client.chat_rounds (line :: rest) w = (Return tt, prompted w) /\
  Client2Loop.chat_rounds (line :: rest) w = (Return tt, prompted w) /\
  Client3.chat_rounds (line :: rest) w = (Return tt, prompted w).
Proof.
  intros Hq. cbn [Client.chat_rounds Client2Loop.chat_rounds Client3.chat_rounds].
  rewrite Hq. auto.
Qed.

(** [client.py] and [client2.py]: an [Exception] raised by the query is
    printed and the loop goes on with the next line. *)
Lemma chat_rounds_error1 line rest w e w1 :
  is_quit (strip line) = false ->
  Client.process_query (strip line) (prompted w) = (Raise e, w1) ->
  is_Exception e = true ->
  Client.chat_rounds (line :: rest) w
  = Client.chat_rounds rest (snd (print (LF +:+ "Error: " +:+ exn_msg e) w1)).
Proof.
  intros Hq Hp He. cbn [Client.chat_rounds]. rewrite Hq.
  unfold prompted, print in Hp. cbn [snd] in Hp.
  unfold bind, try_except, print. cbn [snd]. rewrite Hp, He.
  reflexivity.
Qed.

Lemma chat_rounds_error2 line rest w e w1 :
  is_quit (strip line) = false ->
  Client2.process_query (strip line) (prompted w) = (Raise e, w1) ->
  is_Exception e = true ->
  Client2Loop.chat_rounds (line :: rest) w
  = Client2Loop.chat_rounds rest (snd (print ("Error: " +:+ exn_msg e) w1)).
Proof.
  intros Hq Hp He. cbn [Client2Loop.chat_rounds]. rewrite Hq.
  unfold prompted, print in Hp. cbn [snd] in Hp.
  unfold bind, try_except, print. cbn [snd]. rewrite Hp, He.
  reflexivity.
Qed.

(** [client3.py]: the exception ends the loop. *)
Lemma chat_rounds_error3 line rest w e w1 :
  is_quit (strip line) = false ->
  Client3.process_query (strip line) (prompted w) = (Raise e, w1) ->
  Client3.chat_rounds (line :: rest) w = (Raise e, w1).
Proof.
  intros Hq Hp. cbn [Client3.chat_rounds]. rewrite Hq.
  unfold prompted, print in Hp. cbn [snd] in Hp.
  unfold bind, print. cbn [snd]. now rewrite Hp.
Qed.

(** No loop returns unless a quit token was read. *)
Lemma chat_rounds_return1 inputs :
  forall w, fst (Client.chat_rounds inputs w) = Return tt ->
            existsb (fun line => is_quit (strip line)) inputs = true.
Proof.
  induction inputs as [| line rest IH]; intros w; cbn [Client.chat_rounds existsb].
  - discriminate.
  - destruct (is_quit (strip line)); [reflexivity |]. simpl orb.
    unfold bind at 1, print at 1. unfold bind at 1.
    destruct (try_except _ _ _) as [[u | e] w1]; [apply IH | discriminate].
Qed.

Lemma chat_rounds_return2 inputs :
  forall w, fst (Client2Loop.chat_rounds inputs w) = Return tt ->
            existsb (fun line => is_quit (strip line)) inputs = true.
Proof.
  induction inputs as [| line rest IH]; intros w;
    cbn [Client2Loop.chat_rounds existsb].
  - discriminate.
  - destruct (is_quit (strip line)); [reflexivity |]. simpl orb.
    unfold bind at 1, print at 1. unfold bind at 1.
    destruct (try_except _ _ _) as [[u | e] w1]; [apply IH | discriminate].
Qed.

Lemma chat_rounds_return3 inputs :
  forall w, fst (Client3.chat_rounds inputs w) = Return tt ->
            existsb (fun line => is_quit (strip line)) inputs = true.
Proof.
  induction inputs as [| line rest IH]; intros w; cbn [Client3.chat_rounds existsb].
  - discriminate.
  - destruct (is_quit (strip line)); [reflexivity |]. simpl orb.
    unfold bind at 1, print at 1. unfold bind at 1.
    destruct (Client3.process_query _ _) as [[r | e] w1]; [| discriminate].
    unfold bind at 1. destruct (report r w1) as [[u | e] w2];
      [apply IH | discriminate].
Qed.

End ChatLoops.

(** C9 at a service that refuses every request.  The loop of [client3.py]
    ends with the service's error at the first query, having prompted once
    and printed nothing about the error; the loop of [client.py], on the
    same input, prints the error after each query, prompts again and
    returns at the quit token. *)
Theorem unguarded_loop_stops :
  let quota := Exn ServiceError "429 RESOURCE_EXHAUSTED" in
  let E := Ref.externals (Ref.always (Raise quota)) [] [] ["srv"] in
  let inputs := ["hi"; "are you there?"; " Quit "] in
  let prompt := LF +:+ "Query: " in
  let error := LF +:+ "Error: 429 RESOURCE_EXHAUSTED" in
  (exists w',
      Client3.chat_loop inputs Ref.empty_world = (Raise quota, w') /\
      stdout w' = [LF +:+ "Simple Chat Client Started! (No Tools)";
                   "Type your queries or 'quit' to exit."; prompt]) /\
  (exists w',
      Client.chat_loop inputs Ref.connected_world = (Return tt, w') /\
      stdout w' = [LF +:+ "MCP Client Started!";
                   "Type your queries or 'quit' to exit.";
                   prompt; error; prompt; error; prompt]).
Proof.
  intros quota E inputs prompt error. split.
  - eexists. split; [vm_compute; reflexivity | reflexivity].
  - eexists. split; [vm_compute; reflexivity | reflexivity].
Qed.

(** ** The path guard of the local file tools *)






Lemma confines_still {A} base (m : M A) :
  (forall w, fs_log (snd (m w)) = fs_log w /\ fs (snd (m w)) = fs w) ->
  confines base m.
Proof.
  intros Hm w. destruct (Hm w) as [Hl Hf].
  exists []. rewrite app_nil_r, Hf. auto.
Qed.

Lemma confines_ret {A} base (a : A) : confines base (ret a).
Proof. apply confines_still. auto. Qed.

Lemma confines_raise {A} base e : confines base (@raise A e).
Proof. apply confines_still. auto. Qed.

Lemma confines_lift {A} base (o : outcome A) : confines base (lift o).
Proof. apply confines_still. auto. Qed.

Lemma confines_get_world base : confines base get_world.
Proof. apply confines_still. auto. Qed.

Lemma confines_log_access base a :
  is_relative_to (accessed a) base = true ->
  confines base (modify (log_access a)).
Proof. intros Ha w. exists [a]. simpl. auto. Qed.

Lemma confines_log_accesses base l :
  Forall (fun a => is_relative_to (accessed a) base = true) l ->
  confines base (modify (log_accesses l)).
Proof. intros Hl w. exists l. simpl. auto. Qed.


#[export] Hint Resolve confines_ret confines_raise confines_lift
  confines_get_world confines_log_access : effort.

Section PathGuard.
Context `{Externals}.






Lemma normalize_path_run file_path w :
  (exists e, Client2.normalize_path file_path w = (Raise e, w)) \/
  (exists p, Client2.normalize_path file_path w = (Return p, w) /\
             resolve file_path = Return p /\
             is_relative_to p ALLOWED_BASE = true).
Proof.
  unfold Client2.normalize_path, bind, lift.
  destruct (resolve file_path) as [p | e]; [| eauto].
  destruct (is_relative_to p ALLOWED_BASE) eqn:Hp; simpl; eauto.
Qed.

Lemma normalize_path_inside file_path w p :
  resolve file_path = Return p -> is_relative_to p ALLOWED_BASE = true ->
  Client2.normalize_path file_path w = (Return p, w).
Proof.
  intros Hr Hp. unfold Client2.normalize_path, bind, lift.
  now rewrite Hr, Hp.
Qed.



End PathGuard.

(** ** Patterns of one component *)

Lemma prefix_snoc_step (cur q : path) c todo :
  cur `prefix_of` q -> q <> cur -> q `prefix_of` cur ++ c :: todo ->
  cur ++ [c] `prefix_of` q.
Proof.
  intros [k ->] Hne Hq.
  apply prefix_app_inv in Hq.
  destruct k as [| c' k]; [now rewrite app_nil_r in Hne |].
  apply prefix_cons_inv_1 in Hq as ->.
  rewrite (cons_middle c cur k), app_assoc. now apply prefix_app_r.
Qed.

Lemma walk_plain rest :
  forall cur, plain rest = true -> walk cur rest = cur ++ rest.
Proof.
  induction rest as [| c rest IH]; intros cur Hp; simpl in *.
  - now rewrite app_nil_r.
  - apply andb_true_iff in Hp as [Hc Hp]. apply negb_true_iff in Hc.
    rewrite Hc, (IH _ Hp). now rewrite <- app_assoc.
Qed.

Lemma real_plain q : plain q = true -> real q = q.
Proof. intros Hq. unfold real. now rewrite walk_plain. Qed.







(** ** What the selectors of such a pattern visit and yield *)


Lemma dirs_down_spec m rest :
  forall cur,
    dirs_down m cur rest = true <->
    forall d, cur `prefix_of` d -> d <> cur -> d `prefix_of` cur ++ rest ->
              lookup_node m d = Some Dir.
Proof.
  induction rest as [| c rest IH]; intros cur; simpl.
  - split; [| reflexivity]. intros _ d Hcur Hne Hd.
    rewrite app_nil_r in Hd. exfalso. apply Hne. now apply (anti_symm prefix).
  - assert (Hlast : cur ++ [c] `prefix_of` cur ++ c :: rest).
    { rewrite (cons_middle c cur rest), app_assoc. now apply prefix_app_r. }
    assert (Hstep : cur `prefix_of` cur ++ [c] /\ cur ++ [c] <> cur).
    { split; [now apply prefix_app_r |]. intros Heq.
      apply (f_equal length) in Heq. rewrite length_app in Heq.
      simpl in Heq. lia. }
    split.
    + intros Hdown d Hcur Hne Hd.
      pose proof (prefix_snoc_step cur d c rest Hcur Hne Hd) as Hd1.
      destruct (lookup_node m (cur ++ [c])) as [[data |] |] eqn:Hc;
        try discriminate.
      destruct (decide (d = cur ++ [c])) as [-> | Hne']; [exact Hc |].
      apply (proj1 (IH _) Hdown d Hd1 Hne').
      now rewrite <- app_assoc.
    + intros Hall.
      rewrite (Hall (cur ++ [c]) (proj1 Hstep) (proj2 Hstep) Hlast).
      apply IH. intros d Hd1 Hne' Hd. rewrite <- app_assoc in Hd.
      apply Hall; [| | exact Hd].
      * etransitivity; [apply (proj1 Hstep) | exact Hd1].
      * intros ->. now apply prefix_snoc_not in Hd1.
Qed.

Lemma in_iterate_directories m p d :
  real p = p ->
  In d (iterate_directories m p)
  <-> d = p \/
      exists rest, rest <> [] /\ d = p ++ rest /\ is_Some (m !! d) /\
                   dirs_down m p rest = true.
Proof.
  intros Hp. unfold iterate_directories. rewrite Hp. simpl In.
  rewrite in_flat_map. split.
  - intros [<- | ([q n] & Hin & Hx)]; [now left | right].
    apply list_elem_of_In, elem_of_map_to_list in Hin. simpl in *.
    destruct (bool_decide_reflect (take (length p) q = p)) as [Htake |];
      [| contradiction].
    destruct (Nat.ltb_spec (length p) (length q)) as [Hlen |];
      [| contradiction].
    simpl in Hx.
    destruct (dirs_down m p (drop (length p) q)) eqn:Hdown; [| contradiction].
    destruct Hx as [<- | []].
    assert (p ++ drop (length p) q = q) as Hq.
    { rewrite <- Htake at 1. apply take_drop. }
    exists (drop (length p) q). repeat split; auto.
    + intros Hnil. apply (f_equal length) in Hnil.
      rewrite length_drop in Hnil. simpl in Hnil. lia.
    + rewrite Hq. eauto.
  - intros [-> | (rest & Hne & -> & [n Hn] & Hdown)]; [now left | right].
    exists (p ++ rest, n). split.
    + apply list_elem_of_In, elem_of_map_to_list. exact Hn.
    + simpl. rewrite take_app_length, drop_app_length, Hdown.
      rewrite bool_decide_eq_true_2 by reflexivity.
      destruct (Nat.ltb_spec (length p) (length (p ++ rest))) as [| Hlen];
        [now left |].
      rewrite length_app in Hlen. destruct rest; [congruence | simpl in Hlen; lia].
Qed.

Section Glob.
Context `{Externals}.



(** The directories the recursive wildcard starts from are [p] and the
    directories in its tree. *)
Lemma starting_points m p d :
  real p = p -> plain_names m -> lookup_node m p = Some Dir ->
  In d (iterate_directories m p) ->
  real d = d /\ p `prefix_of` d /\ lookup_node m d = Some Dir /\
  (d <> p -> in_tree m p d).
Proof.
  intros Hp Hplain Hdir Hin.
  apply (in_iterate_directories m p d Hp) in Hin
    as [-> | (rest & Hne & -> & Hsome & Hdown)].
  - repeat split; auto. congruence.
  - pose proof (proj1 (dirs_down_spec m rest p) Hdown) as Hall.
    assert (p ++ rest <> p) as Hneq.
    { intros Heq. apply (f_equal length) in Heq. rewrite length_app in Heq.
      destruct rest; [congruence | simpl in Heq; lia]. }
    split; [apply real_plain, Hplain, Hsome |].
    split; [now apply prefix_app_r |].
    split; [apply Hall; auto; now apply prefix_app_r |].
    intros _. split; [now apply prefix_app_r |]. split; [exact Hneq |].
    intros d Hpd Hd Hne'.
    destruct (decide (d = p)) as [-> | Hnp]; [exact Hdir |].
    now apply Hall.
Qed.


End Glob.

Section SearchGuard.
Context `{Externals}.

Lemma rglob_fs p pattern w : fs (snd (rglob p pattern w)) = fs w.
Proof.
  unfold rglob. destruct (startswith pattern "/"); [reflexivity |].
  unfold bind at 1, lift. destruct (make_selector _) as [s | e]; [| reflexivity].
  unfold bind, modify, get_world. cbn [fst snd].
  destruct (is_dir _ p); reflexivity.
Qed.



End SearchGuard.

(** C10 at an extension that holds path components.  [search_file] checks
    the directory it is given and splices the extension into the pattern
    unchecked: from the base directory [/srv] it lists the directory above
    and names [/outside.txt], an entry outside the base, where [read_file]
    refuses the same entry. *)
Theorem search_file_escapes :
  let E := local_externals in
  let run := Client2.search_file (JStr "/../../*") "." nested_world in
  (exists names,
      fst run = Return names /\ In "/srv/sub/../../outside.txt" names) /\
  In (ListDir []) (fs_log (snd run)) /\
  ~ confined ["srv"] nested_world (snd run) /\
  fst (Client2.read_file "../outside.txt" nested_world)
  = Raise (Exn PermissionError "Access denied: /outside.txt").
Proof.
  intros E run. split; [| split; [| split]].
  - eexists. split; [vm_compute; reflexivity |]. simpl. tauto.
  - vm_compute. tauto.
  - intros (new & Hlog & Hall & _).
    assert (In (ListDir []) new) as Hin.
    { change (fs_log nested_world) with (@nil access) in Hlog.
      rewrite app_nil_l in Hlog. rewrite <- Hlog. vm_compute. tauto. }
    rewrite List.Forall_forall in Hall. specialize (Hall _ Hin).
    discriminate Hall.
  - reflexivity.
Qed.

(** * Further properties of the code *)

(** ** Creating directories *)

Section Mkdir.
Context `{Externals}.

(** Whatever [mkdir_walk] ends in: entries that existed are kept, and an
    entry that appears is a directory on the way from [cur] down to the
    target.  When it returns, every step of that way is a directory. *)
Lemma mkdir_walk_grows todo :
  forall cur w o w',
    mkdir_walk cur todo w = (o, w') ->
    (forall q n, fs w !! q = Some n -> fs w' !! q = Some n) /\
    (forall q, fs w !! q = None -> fs w' !! q <> None ->
               fs w' !! q = Some Dir /\ cur `prefix_of` q /\ q <> cur /\
               q `prefix_of` cur ++ todo) /\
    (o = Return tt ->
     forall q, cur `prefix_of` q -> q <> cur -> q `prefix_of` cur ++ todo ->
               fs w' !! q = Some Dir).
Proof.
  induction todo as [| c todo IH]; intros cur w o w' E; cbn [mkdir_walk] in E.
  - injection E as <- <-. split; [auto | split].
    + intros q Hq Hq'. contradiction.
    + intros _ q Hcur Hne Hq. rewrite app_nil_r in Hq.
      exfalso. apply Hne. now apply (anti_symm prefix).
  - unfold bind at 1, get_world in E. cbn [fst snd] in E.
    assert (Hstep : forall q, cur ++ [c] `prefix_of` q ->
                              cur `prefix_of` q /\ q <> cur).
    { intros q Hq. split; [eapply prefix_app_l; exact Hq |].
      intros ->. now apply prefix_snoc_not in Hq. }
    assert (Hlook : forall m, lookup_node m (cur ++ [c]) = m !! (cur ++ [c])).
    { intros m. unfold lookup_node. now destruct cur. }
    assert (Hlast : cur ++ [c] `prefix_of` cur ++ c :: todo).
    { rewrite (cons_middle c cur todo), app_assoc. now apply prefix_app_r. }
    rewrite Hlook in E.
    destruct (fs w !! (cur ++ [c])) as [[d |] |] eqn:Hq1.
    + injection E as <- <-. split; [auto | split].
      * intros q Hq Hq'. contradiction.
      * discriminate.
    + destruct (IH _ _ _ _ E) as (Hkeep & Hnew & Hway).
      rewrite <- app_assoc in Hnew, Hway. simpl in Hnew, Hway.
      split; [exact Hkeep | split].
      * intros q Hq Hq'. destruct (Hnew q Hq Hq') as (Hd & Hp & _ & Hq2).
        destruct (Hstep q Hp). auto.
      * intros Ho q Hcur Hne Hq.
        pose proof (prefix_snoc_step cur q c todo Hcur Hne Hq) as Hq1'.
        destruct (decide (q = cur ++ [c])) as [-> | Hne'];
          [now apply Hkeep | now apply Hway].
    + unfold bind at 1, modify at 1 in E. cbn [fst snd] in E.
      unfold bind at 1, modify at 1 in E. cbn [fst snd] in E.
      destruct (IH _ _ _ _ E) as (Hkeep & Hnew & Hway).
      rewrite <- app_assoc in Hnew, Hway. simpl in Hnew, Hway.
      assert (Hmade : fs w' !! (cur ++ [c]) = Some Dir).
      { apply Hkeep. simpl. apply lookup_insert_eq. }
      split; [| split].
      * intros q n Hq. apply Hkeep. simpl.
        rewrite lookup_insert_ne; [exact Hq |].
        intros Heq. subst q.
        assert (Some n = None) as Habs
          by exact (eq_trans (eq_sym Hq) Hq1).
        discriminate Habs.
      * intros q Hq Hq'.
        destruct (decide (q = cur ++ [c])) as [-> | Hne'].
        { split; [exact Hmade |]. split; [now apply prefix_app_r |].
          split; [| exact Hlast].
          intros Heq. apply (f_equal length) in Heq.
          rewrite length_app in Heq. simpl in Heq. lia. }
        assert (fs (set_fs (<[cur ++ [c] := Dir]> (fs w))
                      (log_access (MakeDir (cur ++ [c])) w)) !! q = None) as Hq0.
        { simpl. now rewrite lookup_insert_ne. }
        destruct (Hnew q Hq0 Hq') as (Hd & Hp & _ & Hq2).
        destruct (Hstep q Hp). auto.
      * intros Ho q Hcur Hne Hq.
        pose proof (prefix_snoc_step cur q c todo Hcur Hne Hq) as Hq1'.
        destruct (decide (q = cur ++ [c])) as [-> | Hne'];
          [exact Hmade | now apply Hway].
Qed.

End Mkdir.

(** ** What the file tools do to the file system *)

Lemma parent_shorter (p : path) : p <> [] -> S (length (parent p)) = length p.
Proof.
  intros Hp. unfold parent.
  destruct p as [| x p] using rev_ind; [congruence |].
  rewrite removelast_last, length_app. simpl. lia.
Qed.

Lemma parent_prefix (p : path) : parent p `prefix_of` p.
Proof.
  unfold parent. destruct p as [| x p] using rev_ind; [reflexivity |].
  rewrite removelast_last. now apply prefix_app_r.
Qed.

(** Text without a carriage return is read as it is. *)
Lemma universal_newlines_plain l :
  ~ In CR l -> universal_newlines l = l.
Proof.
  induction l as [| c l IH]; [reflexivity |]. intros Hno. simpl.
  destruct (Ascii.eqb_spec c CR) as [-> | Hne]; [exfalso; apply Hno; now left |].
  rewrite IH; [reflexivity |]. intros Hin. apply Hno. now right.
Qed.

Lemma text_mode_plain data : ~ In CR (chars data) -> text_mode data = data.
Proof.
  intros Hno. unfold text_mode. rewrite universal_newlines_plain by exact Hno.
  apply string_of_list_ascii_of_string.
Qed.

(** Text that was read holds no carriage return. *)
Lemma universal_newlines_clean l : ~ In CR (universal_newlines l).
Proof.
  assert (forall n l, (length l <= n)%nat -> ~ In CR (universal_newlines l))
    as Hall.
  { clear l. induction n as [| n IH]; intros [| c l] Hlen;
      try (intros []); [simpl in Hlen; lia |].
    simpl in Hlen. simpl.
    destruct (Ascii.eqb_spec c CR) as [-> | Hne].
    - intros [Heq | Hin]; [discriminate Heq |].
      destruct l as [| d l]; [destruct Hin |].
      destruct (Ascii.eqb d "010");
        (eapply IH; [| exact Hin]); simpl in *; lia.
    - intros [Heq | Hin]; [congruence |].
      eapply IH; [| exact Hin]. lia. }
  now apply (Hall (length l)).
Qed.

Section FileTools.
Context `{Externals}.

Lemma normalize_path_returns file_path w p w' :
  Client2.normalize_path file_path w = (Return p, w') ->
  w' = w /\ resolve file_path = Return p /\
  is_relative_to p ALLOWED_BASE = true.
Proof.
  unfold Client2.normalize_path, bind, lift.
  destruct (resolve file_path) as [r | e]; [| discriminate].
  destruct (is_relative_to r ALLOWED_BASE) eqn:Hr; simpl; [| discriminate].
  intros [= -> ->]. auto.
Qed.

Lemma read_bytes_run p w :
  read_bytes p w
  = (match lookup_node (fs w) p with
     | Some (File data) => Return data
     | Some Dir => Raise (os_error IsADirectoryError p)
     | None => Raise (os_error (missing (fs w) p) p)
     end, log_access (ReadFile p) w).
Proof.
  unfold read_bytes, bind, modify, get_world. cbn [fst snd].
  change (fs (log_access (ReadFile p) w)) with (fs w).
  now destruct (lookup_node (fs w) p) as [[d |] |].
Qed.

Lemma read_text_run p w :
  exists o,
    read_text p w = (o, log_access (ReadFile p) w) /\
    match o with
    | Return text =>
        exists data, lookup_node (fs w) p = Some (File data) /\
                     utf8_valid data = true /\ text = text_mode data
    | Raise _ => True
    end.
Proof.
  unfold read_text, bind at 1. rewrite read_bytes_run.
  destruct (lookup_node (fs w) p) as [[data |] |]; try (eexists; split; [reflexivity | exact I]).
  destruct (utf8_valid data) eqn:Hv; eexists; (split; [reflexivity |]); simpl; eauto.
Qed.

Lemma exists_run p w :
  exists_ p w
  = (Return (bool_decide (is_Some (lookup_node (fs w) p))),
     log_access (Probe p) w).
Proof. reflexivity. Qed.

(** [write_text] fails to open the file and changes nothing, or writes the
    data, or leaves the file empty because the data cannot be encoded. *)
Lemma write_text_run p data w :
  (exists e, write_text p data w = (Raise e, log_access (WriteFile p) w)) \/
  (lookup_node (fs w) p <> Some Dir /\
   if utf8_valid data
   then write_text p data w
        = (Return tt,
           set_fs (<[p := File data]> (fs w)) (log_access (WriteFile p) w))
   else exists e,
       exn_kind e = UnicodeEncodeError /\
       write_text p data w
       = (Raise e,
          set_fs (<[p := File ""]> (fs w)) (log_access (WriteFile p) w))).
Proof.
  unfold write_text, bind, modify, get_world. cbn [fst snd].
  change (fs (log_access (WriteFile p) w)) with (fs w).
  destruct (lookup_node (fs w) p) as [[d |] |] eqn:Hp;
    destruct (lookup_node (fs w) (parent p)) as [[d' |] |] eqn:Hpar;
    first
      [ left; eexists; reflexivity
      | right; (split; [congruence |]); destruct (utf8_valid data);
        [reflexivity | eexists; split; [| reflexivity]; reflexivity] ].
Qed.

(** Everything [write_file] can do.  It is refused before touching
    anything, or, with [p] the resolved path: every other entry is kept;
    an entry that appears is a directory above [p]; and [p] itself is
    left as it was by a failure, holds the earlier text followed by the
    content after a success, and is empty when that text could not be
    encoded. *)
Lemma write_file_effects file_path content w o w' :
  Client2.write_file file_path content w = (o, w') ->
  (w' = w /\ exists e, o = Raise e /\ forall p, resolve file_path = Return p ->
                                       is_relative_to p ALLOWED_BASE = false) \/
  exists p,
    resolve file_path = Return p /\
    is_relative_to p ALLOWED_BASE = true /\
    (forall q n, q <> p -> fs w !! q = Some n -> fs w' !! q = Some n) /\
    (forall q, q <> p -> fs w !! q = None -> fs w' !! q <> None ->
               fs w' !! q = Some Dir /\ q `prefix_of` p) /\
    ((exists e, o = Raise e /\ fs w' !! p = fs w !! p) \/
     exists c,
       content = JStr c /\ p <> [] /\
       (forall n, fs w !! p = Some n ->
                  exists data, n = File data /\ utf8_valid data = true) /\
       if utf8_valid (text_mode (text_at (fs w) p) +:+ c)
       then o = Return "Write successful" /\
            fs w' !! p = Some (File (text_mode (text_at (fs w) p) +:+ c))
       else (exists e, o = Raise e /\ exn_kind e = UnicodeEncodeError) /\
            fs w' !! p = Some (File "")).
Proof.
  unfold Client2.write_file, bind at 1.
  destruct (Client2.normalize_path file_path w) as [[p | e] w0] eqn:Hn.
  2:{ intros [= <- <-]. left.
      unfold Client2.normalize_path, bind, lift in Hn.
      destruct (resolve file_path) as [r | e'].
      - destruct (is_relative_to r ALLOWED_BASE) eqn:Hr; simpl in Hn;
          [discriminate Hn |].
        injection Hn as <- <-. split; [reflexivity |]. eexists.
        split; [reflexivity |]. intros p [= <-]. exact Hr.
      - injection Hn as <- <-. split; [reflexivity |]. eexists.
        split; [reflexivity |]. discriminate. }
  apply normalize_path_returns in Hn as (-> & Hr & Hin).
  intros E. right. exists p. split; [exact Hr |]. split; [exact Hin |].
  unfold bind at 1 in E.
  destruct (mkdir_parents (parent p) w) as [ou w1] eqn:Hmk.
  destruct (mkdir_walk_grows _ _ _ _ _ Hmk) as (Hkeep & Hnew & _).
  simpl app in Hnew.
  assert (Hnew1 : forall q, fs w !! q = None -> fs w1 !! q <> None ->
                            fs w1 !! q = Some Dir /\ q `prefix_of` p /\ q <> p).
  { intros q Hq Hq'. destruct (Hnew q Hq Hq') as (Hd & _ & Hne & Hpre).
    split; [exact Hd |]. split; [etransitivity; [exact Hpre | apply parent_prefix] |].
    intros ->. apply prefix_length in Hpre.
    pose proof (parent_shorter p Hne). lia. }
  assert (Hsame : fs w1 !! p = fs w !! p).
  { destruct (fs w !! p) as [n |] eqn:Hwp; [now apply Hkeep |].
    destruct (fs w1 !! p) eqn:Hw1p; [| reflexivity].
    destruct (Hnew1 p Hwp) as (_ & _ & Habs); [| congruence].
    intros Habs. pose proof (eq_trans (eq_sym Hw1p) Habs) as Hno.
    discriminate Hno. }
  clear Hnew Hmk.
  (* a world whose file system is that of [w1] *)
  assert (Hstill : forall w2 e, fs w2 = fs w1 ->
            (forall q n, q <> p -> fs w !! q = Some n -> fs w2 !! q = Some n) /\
            (forall q, q <> p -> fs w !! q = None -> fs w2 !! q <> None ->
                       fs w2 !! q = Some Dir /\ q `prefix_of` p) /\
            ((exists e0, @Raise string e = Raise e0 /\ fs w2 !! p = fs w !! p) \/
             exists c,
               content = JStr c /\ p <> [] /\
               (forall n, fs w !! p = Some n ->
                          exists data, n = File data /\ utf8_valid data = true) /\
               if utf8_valid (text_mode (text_at (fs w) p) +:+ c)
               then @Raise string e = Return "Write successful" /\
                    fs w2 !! p = Some (File (text_mode (text_at (fs w) p) +:+ c))
               else (exists e0, @Raise string e = Raise e0 /\
                                exn_kind e0 = UnicodeEncodeError) /\
                    fs w2 !! p = Some (File ""))).
  { intros w2 e ->. split; [intros q n _; apply Hkeep |]. split.
    - intros q _ Hq Hq'. destruct (Hnew1 q Hq Hq') as (? & ? & _). auto.
    - left. eauto. }
  (* a world in which [p] was written *)
  assert (Hwritten : forall w2 n, fs w2 = <[p := n]> (fs w1) ->
            (forall q n, q <> p -> fs w !! q = Some n -> fs w2 !! q = Some n) /\
            (forall q, q <> p -> fs w !! q = None -> fs w2 !! q <> None ->
                       fs w2 !! q = Some Dir /\ q `prefix_of` p)).
  { intros w2 n ->. split.
    - intros q n' Hne Hq. rewrite lookup_insert_ne by congruence.
      now apply Hkeep.
    - intros q Hne Hq Hq'. rewrite lookup_insert_ne in * by congruence.
      destruct (Hnew1 q Hq Hq') as (? & ? & _). auto. }
  destruct ou as [u | e].
  2:{ injection E as <- <-. now apply Hstill. }
  unfold bind at 1 in E. rewrite exists_run in E.
  set (w2 := log_access (Probe p) w1) in E.
  assert (exists existing w3,
             fs w3 = fs w1 /\
             ((if bool_decide (is_Some (lookup_node (fs w1) p))
               then read_text p else ret "") w2 = (Return existing, w3) /\
              existing = text_mode (text_at (fs w) p) /\
              p <> [] /\
              (forall n, fs w !! p = Some n ->
                         exists data, n = File data /\ utf8_valid data = true) \/
              exists e,
                (if bool_decide (is_Some (lookup_node (fs w1) p))
                 then read_text p else ret "") w2 = (Raise e, w3)))
    as (existing & w3 & Hfs3 & Hread).
  { destruct (bool_decide (is_Some (lookup_node (fs w1) p))) eqn:Hthere.
    - destruct (read_text_run p w2) as ([text | e] & Hrun & Hdata).
      + destruct Hdata as (data & Hfile & Hvalid & ->).
        exists (text_mode data). eexists. split; [| left; split; [exact Hrun |]].
        * reflexivity.
        * change (fs w2) with (fs w1) in Hfile. unfold lookup_node in Hfile.
          destruct p as [| x p]; [discriminate Hfile |].
          rewrite Hsame in Hfile.
          split; [unfold text_at; now rewrite Hfile |].
          split; [discriminate |].
          intros n Hn. exists data. split; [congruence | exact Hvalid].
      + exists "". eexists. split; [| right; eauto]. reflexivity.
    - exists "", w2. split; [reflexivity |]. left. split; [reflexivity |].
      apply bool_decide_eq_false in Hthere.
      assert (lookup_node (fs w1) p = None) as Hnone.
      { destruct (lookup_node (fs w1) p); [| reflexivity].
        exfalso. apply Hthere. eauto. }
      unfold lookup_node in Hnone.
      destruct p as [| x p]; [discriminate Hnone |].
      rewrite Hsame in Hnone.
      split; [unfold text_at; now rewrite Hnone |].
      split; [discriminate |].
      intros n Hn. congruence. }
  unfold bind at 1 in E.
  destruct Hread as [(Hread & -> & Hne & Hold) | [e Hread]]; rewrite Hread in E.
  2:{ injection E as <- <-. now apply Hstill. }
  destruct content as [| | | c | |];
    try (injection E as <- <-; now apply Hstill).
  unfold bind at 1 in E.
  destruct (write_text_run p (text_mode (text_at (fs w) p) +:+ c) w3)
    as [[e He] | [_ Hw]].
  { rewrite He in E. injection E as <- <-. now apply Hstill. }
  destruct (utf8_valid (text_mode (text_at (fs w) p) +:+ c)) eqn:Hv.
  - rewrite Hw in E. injection E as <- <-.
    destruct (Hwritten (set_fs (<[p := File (text_mode (text_at (fs w) p) +:+ c)]> (fs w3))
                          (log_access (WriteFile p) w3))
                (File (text_mode (text_at (fs w) p) +:+ c)))
      as [Hk Hn]; [simpl; now rewrite Hfs3 |].
    split; [exact Hk |]. split; [exact Hn |]. right. exists c.
    split; [reflexivity |]. split; [exact Hne |]. split; [exact Hold |].
    rewrite Hv. split; [reflexivity |].
    simpl. apply lookup_insert_eq.
  - destruct Hw as (e & Hkind & Hw). rewrite Hw in E. injection E as <- <-.
    destruct (Hwritten (set_fs (<[p := File ""]> (fs w3))
                          (log_access (WriteFile p) w3)) (File ""))
      as [Hk Hn]; [simpl; now rewrite Hfs3 |].
    split; [exact Hk |]. split; [exact Hn |]. right. exists c.
    split; [reflexivity |]. split; [exact Hne |]. split; [exact Hold |].
    rewrite Hv. split; [eauto |].
    simpl. apply lookup_insert_eq.
Qed.

End FileTools.


Section FileProperties.
Context `{Externals}.

(** A successful [write_file] appends: the file then holds the text that
    was there as text mode reads it, with every line end a line feed,
    followed by the content; nothing precedes the content when there was
    no file.  A text without carriage returns is kept byte for byte. *)
Theorem write_file_appends (file_path c : string) (w w' : World) (s : string) :
  Client2.write_file file_path (JStr c) w = (Return s, w') ->
  s = "Write successful" /\
  exists p,
    resolve file_path = Return p /\
    fs w' !! p = Some (File (text_mode (text_at (fs w) p) +:+ c)) /\
    (~ In CR (chars (text_at (fs w) p)) ->
     fs w' !! p = Some (File (text_at (fs w) p +:+ c))).
Proof.
  intros E.
  destruct (write_file_effects _ _ _ _ _ E)
    as [(_ & e & He & _) | (p & Hr & _ & _ & _ & Htarget)];
    [discriminate He |].
  destruct Htarget as [(e & He & _) | (c' & [= <-] & _ & _ & Hw)];
    [discriminate He |].
  destruct (utf8_valid _); [| destruct Hw as [(e & He & _) _]; discriminate He].
  destruct Hw as [[= ->] Hfile].
  split; [reflexivity |]. exists p. split; [exact Hr |].
  split; [exact Hfile |]. intros Hplain.
  now rewrite (text_mode_plain _ Hplain) in Hfile.
Qed.

(** Reading a file back after a successful [write_file] gives the text
    that was there, its line ends turned into line feeds, followed by the
    content. *)
Theorem write_then_read (file_path c : string) (w w' : World) (s : string) :
  Client2.write_file file_path (JStr c) w = (Return s, w') ->
  exists p,
    resolve file_path = Return p /\
    fst (Client2.read_file file_path w')
    = Return (text_mode (text_at (fs w) p) +:+ c).
Proof.
  intros E.
  destruct (write_file_effects _ _ _ _ _ E)
    as [(_ & e & He & _) | (p & Hr & Hin & _ & _ & Htarget)];
    [discriminate He |].
  destruct Htarget as [(e & He & _) | (c' & [= <-] & Hne & _ & Hw)];
    [discriminate He |].
  destruct (utf8_valid (text_mode (text_at (fs w) p) +:+ c)) eqn:Hv;
    [| destruct Hw as [(e & He & _) _]; discriminate He].
  destruct Hw as [_ Hfile].
  exists p. split; [exact Hr |].
  unfold Client2.read_file, bind at 1.
  rewrite (normalize_path_inside _ _ _ Hr Hin).
  unfold bind at 1. rewrite read_bytes_run.
  assert (lookup_node (fs w') p
          = Some (File (text_mode (text_at (fs w) p) +:+ c))) as ->.
  { unfold lookup_node. now destruct p. }
  simpl. now rewrite Hv.
Qed.

(** Whatever its outcome, [write_file] leaves every entry other than its
    target as it was, and an entry that appears is the target or a
    directory above it.  When it raises, the target is as it was too, with
    one exception: a text that cannot be encoded leaves the target empty,
    and the error is a [UnicodeEncodeError]. *)
Theorem write_file_frame (file_path : string) (content : json)
    (w w' : World) (o : outcome string) :
  Client2.write_file file_path content w = (o, w') ->
  (forall q n,
      fs w !! q = Some n -> resolve file_path <> Return q ->
      fs w' !! q = Some n) /\
  (forall p n e,
      resolve file_path = Return p -> fs w !! p = Some n -> o = Raise e ->
      fs w' !! p = Some n \/
      exn_kind e = UnicodeEncodeError /\ fs w' !! p = Some (File "") /\
      exists c, content = JStr c /\
                utf8_valid (text_mode (text_at (fs w) p) +:+ c) = false) /\
  (forall q,
      fs w !! q = None -> fs w' !! q <> None ->
      exists p, resolve file_path = Return p /\ q `prefix_of` p /\
                (q <> p -> fs w' !! q = Some Dir)).
Proof.
  intros E.
  destruct (write_file_effects _ _ _ _ _ E)
    as [(-> & e & He & _) | (p & Hr & _ & Hkeep & Hnew & Htarget)].
  { split; [auto |]. split; [auto |]. intros q Hq Hq'. contradiction. }
  split; [| split].
  - intros q n Hq Hother. apply Hkeep; [congruence | exact Hq].
  - intros p' n e Hr' Hp ->. assert (p' = p) as -> by congruence.
    destruct Htarget as [(e' & _ & Hsame) | (c & -> & _ & _ & Hw)];
      [left; congruence |].
    destruct (utf8_valid (text_mode (text_at (fs w) p) +:+ c)) eqn:Hv;
      [destruct Hw as [Habs _]; discriminate Habs |].
    destruct Hw as [(e' & [= <-] & Hkind) Hfile]. right. eauto 6.
  - intros q Hq Hq'. exists p. split; [exact Hr |].
    destruct (decide (q = p)) as [-> | Hne]; [split; [reflexivity | tauto] |].
    destruct (Hnew q Hne Hq Hq') as [Hd Hpre]. auto.
Qed.


(** [write_file] does not append to a file whose bytes are not UTF-8: it
    raises and the file keeps its content. *)
Theorem write_file_refuses_binary (file_path : string) (content : json)
    (p : path) (data : string) (w : World) :
  resolve file_path = Return p ->
  fs w !! p = Some (File data) ->
  utf8_valid data = false ->
  (exists e, fst (Client2.write_file file_path content w) = Raise e) /\
  fs (snd (Client2.write_file file_path content w)) !! p = Some (File data).
Proof.
  intros Hr Hp Hbad.
  destruct (Client2.write_file file_path content w) as [o w'] eqn:E.
  destruct (write_file_effects _ _ _ _ _ E)
    as [(-> & e & -> & _) | (p' & Hr' & _ & _ & _ & Htarget)];
    [eauto |].
  assert (p' = p) as -> by congruence.
  destruct Htarget as [(e & -> & Hsame) | (c & _ & _ & Hold & _)].
  - split; [eauto |]. simpl. congruence.
  - destruct (Hold _ Hp) as (data' & [= <-] & Hvalid). congruence.
Qed.

(** [read_file] and [search_file] never change the file system. *)
Theorem reading_changes_nothing (file_path : string) (extension : json)
    (w : World) :
  fs (snd (Client2.read_file file_path w)) = fs w /\
  fs (snd (Client2.search_file extension file_path w)) = fs w.
Proof.
  split.
  - unfold Client2.read_file, bind at 1.
    destruct (normalize_path_run file_path w) as [[e ->] | (p & -> & _)];
      [reflexivity |].
    unfold bind at 1. rewrite read_bytes_run.
    destruct (lookup_node (fs w) p) as [[data |] |]; try reflexivity.
    now destruct (utf8_valid data).
  - unfold Client2.search_file, bind at 1.
    destruct (normalize_path_run file_path w) as [[e ->] | (p & -> & _)];
      [reflexivity |].
    unfold bind at 1.
    pose proof (rglob_fs p ("*" +:+ format_value extension) w) as Hfs.
    destruct (rglob p ("*" +:+ format_value extension) w) as [[found | e] w1];
      exact Hfs.
Qed.



End FileProperties.

Lemma write_file_appends_witness :
  let w' := snd (@Client2.write_file local_externals "dos.txt" (JStr "X")
                   dos_world) in
  fs w' !! ["srv"; "dos.txt"]
  = Some (File ("a" +:+ LF +:+ "b" +:+ LF +:+ "cX")).
Proof.
  intros w'.
  destruct (@write_file_appends local_externals "dos.txt" "X" dos_world w'
              "Write successful") as (_ & p & Hr & Hfile & _).
  { vm_compute. reflexivity. }
  vm_compute in Hr. injection Hr as <-. exact Hfile.
Defined.

Lemma write_then_read_witness :
  let w' := snd (@Client2.write_file local_externals "logs/out.txt" (JStr "x")
                   Ref.served_world) in
  exists p,
    @resolve local_externals "logs/out.txt" = Return p /\
    fst (@Client2.read_file local_externals "logs/out.txt" w')
    = Return (text_mode (text_at (fs Ref.served_world) p) +:+ "x").
Proof.
  intros w'.
  apply (@write_then_read local_externals "logs/out.txt" "x"
           Ref.served_world w' "Write successful").
  vm_compute. reflexivity.
Defined.

Lemma write_file_frame_witness :
  let run := @Client2.write_file local_externals "notes.txt"
               (JStr lone_surrogate) Ref.served_world in
  fs (snd run) !! ["srv"] = Some Dir /\
  (fs (snd run) !! ["srv"; "notes.txt"] = Some (File "abc") \/
   fs (snd run) !! ["srv"; "notes.txt"] = Some (File "")) /\
  fs (snd run) !! ["srv"; "notes.txt"] <> Some (File "abc").
Proof.
  intros run.
  destruct (@write_file_frame local_externals "notes.txt"
              (JStr lone_surrogate) Ref.served_world (snd run) (fst run))
    as (Hkeep & Htarget & _).
  { vm_compute. reflexivity. }
  split; [| split].
  - apply Hkeep; [vm_compute; reflexivity |]. vm_compute. discriminate.
  - destruct (Htarget ["srv"; "notes.txt"] (File "abc")
                (Exn UnicodeEncodeError
                   "'utf-8' codec can't encode: surrogates not allowed"))
      as [Hsame | (_ & Hempty & _)];
      [vm_compute; reflexivity | vm_compute; reflexivity
       | vm_compute; reflexivity | now left | now right].
  - vm_compute. discriminate.
Defined.


Lemma write_file_refuses_binary_witness :
  let run := @Client2.write_file local_externals "blob.bin" (JStr "x")
               blob_world in
  (exists e, fst run = Raise e) /\
  fs (snd run) !! ["srv"; "blob.bin"]
  = Some (File (String (ascii_of_nat 200) EmptyString)).
Proof.
  intros run.
  apply (@write_file_refuses_binary local_externals "blob.bin" (JStr "x")
           ["srv"; "blob.bin"]); vm_compute; reflexivity.
Defined.





(** ** Connecting and cleaning up *)

Section Connecting.
Context `{Externals}.

(** Whatever [connect_to_server] ends in, what it entered is on the exit
    stack, the transport below the session, and [self.session] is set
    exactly when the session was entered.  When it returns, both are
    there, the provider was asked for its tools once, and the generation
    service was not contacted. *)
Theorem connect_registers (target : string) (w w' : World) (o : outcome unit) :
  Client.connect_to_server target w = (o, w') ->
  round_trips w' = round_trips w /\
  ((exit_stack w' = exit_stack w /\ session w' = session w /\
    session_log w' = session_log w /\ exists e, o = Raise e) \/
   exists ca,
     Client.command_and_args target = Return ca /\
     ((exit_stack w' = transport_of ca :: exit_stack w /\
       session w' = session w /\ session_log w' = session_log w /\
       exists e, o = Raise e) \/
      (exit_stack w' = Session :: transport_of ca :: exit_stack w /\
       session w' = true /\
       (session_log w' = session_log w \/
        session_log w' = session_log w ++ [Mcp.ListTools]) /\
       (o = Return tt -> session_log w' = session_log w ++ [Mcp.ListTools])))).
Proof.
  unfold Client.connect_to_server, bind at 1, lift at 1.
  destruct (Client.command_and_args target) as [ca | e].
  2:{ intros [= <- <-]. split; [reflexivity |]. left. eauto 6. }
  unfold bind at 1, lift at 1.
  destruct (stdio_client _) as [u | e].
  2:{ intros [= <- <-]. split; [reflexivity |]. left. eauto 6. }
  unfold bind at 1, modify at 1. cbn [fst snd].
  unfold bind at 1, lift at 1.
  destruct client_session as [u' | e].
  2:{ intros [= <- <-]. split; [reflexivity |]. right. exists ca.
      split; [reflexivity |]. left. unfold transport_of. simpl. eauto 6. }
  unfold bind at 1, modify at 1. cbn [fst snd].
  unfold bind at 1, modify at 1. cbn [fst snd].
  unfold bind at 1, lift at 1.
  destruct session_initialize as [u'' | e].
  2:{ intros [= <- <-]. split; [reflexivity |]. right. exists ca.
      split; [reflexivity |]. right. unfold transport_of. simpl.
      repeat split; auto; try discriminate. }
  unfold bind at 1, list_tools. cbn [session set_session].
  cbn [session_log set_session push_resource].
  destruct (provider_tools (session_log w)) as [tools | e].
  - unfold print. intros [= <- <-]. split; [reflexivity |]. right. exists ca.
    split; [reflexivity |]. right. unfold transport_of. simpl.
    repeat split; auto.
  - intros [= <- <-]. split; [reflexivity |]. right. exists ca.
    split; [reflexivity |]. right. unfold transport_of. simpl.
    repeat split; auto; try discriminate.
Qed.

Variable release : resource -> outcome unit.

Lemma async_main_run (target : string) (inputs : list string) (w : World) :
  Lifecycle.async_main release target inputs w
  = let (o, w1) := bind (Client.connect_to_server target)
                     (fun _ => Client.chat_loop inputs)
                     (snd (Lifecycle.new_client w)) in
    match Lifecycle.release_all release (exit_stack w1) None with
    | Return _ => (o, Lifecycle.set_exit_stack [] w1)
    | Raise e => (Raise e, Lifecycle.set_exit_stack [] w1)
    end.
Proof. reflexivity. Qed.

(** [async_main] leaves nothing on the exit stack, however connecting and
    chatting ended; and when every release succeeds, its outcome is the
    outcome of connecting and chatting: cleaning up hides no error. *)
Theorem async_main_releases (target : string) (inputs : list string) (w : World) :
  let start := snd (Lifecycle.new_client w) in
  let body := bind (Client.connect_to_server target)
                (fun _ => Client.chat_loop inputs) in
  exit_stack (snd (Lifecycle.async_main release target inputs w)) = [] /\
  ((forall r, release r = Return tt) ->
   fst (Lifecycle.async_main release target inputs w) = fst (body start)).
Proof.
  intros start body. rewrite async_main_run. fold start. fold body.
  destruct (body start) as [o w1].
  split.
  - destruct (Lifecycle.release_all release (exit_stack w1) None); reflexivity.
  - intros Hok.
    assert (forall stack, Lifecycle.release_all release stack None = Return tt)
      as Hall.
    { induction stack as [| r stack IH]; simpl; [reflexivity |].
      now rewrite Hok. }
    now rewrite Hall.
Qed.

(** With a target that is neither the alias nor a [.py] or [.js] path,
    [async_main] ends with [ValueError] and has written nothing, asked the
    provider nothing and sent the service nothing. *)
Theorem async_main_bad_target (target : string) (inputs : list string)
    (w : World) :
  target <> "fs-mcp-server" ->
  endswith target ".py" = false -> endswith target ".js" = false ->
  let w' := snd (Lifecycle.async_main release target inputs w) in
  (exists msg,
      fst (Lifecycle.async_main release target inputs w)
      = Raise (Exn ValueError msg)) /\
  stdout w' = stdout w /\ session_log w' = session_log w /\
  round_trips w' = round_trips w /\ session w' = false.
Proof.
  intros Hne Hpy Hjs.
  assert (exists msg, Client.command_and_args target = Raise (Exn ValueError msg))
    as [msg Hca].
  { unfold Client.command_and_args.
    destruct (String.eqb_spec target "fs-mcp-server") as [-> | _];
      [congruence |].
    rewrite Hpy, Hjs. eauto. }
  cbv zeta. rewrite async_main_run.
  unfold bind at 1, Client.connect_to_server, bind at 1, lift at 1.
  rewrite Hca. simpl. eauto 6.
Qed.

End Connecting.

Lemma connect_registers_witness :
  let run := @Client.connect_to_server failing_handshake "server.py"
               Ref.empty_world in
  fst run = Raise (Exn ServiceError "handshake failed") /\
  exit_stack (snd run)
  = [Session; transport_of ("python", ["server.py"])] /\
  session (snd run) = true.
Proof.
  intros run.
  destruct (@connect_registers failing_handshake "server.py" Ref.empty_world
              (snd run) (fst run)) as [_ Hstack].
  { vm_compute. reflexivity. }
  split; [reflexivity |].
  destruct Hstack as [(_ & _ & _ & _) | (ca & Hca & Hstack)];
    [split; reflexivity |].
  injection Hca as <-.
  destruct Hstack as [(Hs & _) | (Hs & Hsess & _)]; [discriminate Hs |].
  split; [exact Hs | exact Hsess].
Defined.

Lemma async_main_releases_witness :
  let release := fun _ : resource => Return tt in
  exit_stack (snd (@Lifecycle.async_main failing_handshake release "server.py"
                     ["hi"; "quit"] Ref.served_world)) = [] /\
  fst (@Lifecycle.async_main failing_handshake release "server.py"
         ["hi"; "quit"] Ref.served_world)
  = Raise (Exn ServiceError "handshake failed").
Proof.
  intros release.
  destruct (@async_main_releases failing_handshake release "server.py"
              ["hi"; "quit"] Ref.served_world) as [Hempty Hout].
  split; [exact Hempty |].
  rewrite Hout; reflexivity.
Defined.

Lemma async_main_bad_target_witness :
  let release := fun _ : resource => Return tt in
  let run := @Lifecycle.async_main local_externals release "tool.rb"
               ["hi"; "quit"] Ref.connected_world in
  (exists msg, fst run = Raise (Exn ValueError msg)) /\
  stdout (snd run) = [] /\ session_log (snd run) = [] /\
  round_trips (snd run) = [] /\ session (snd run) = false.
Proof.
  intros release run.
  apply (@async_main_bad_target local_externals release "tool.rb"
           ["hi"; "quit"] Ref.connected_world);
    [discriminate | reflexivity | reflexivity].
Defined.

(** ** More on the chat loops *)

Lemma bind_ext {A B} (m : M A) (k k' : A -> M B) w :
  (forall a w1, k a w1 = k' a w1) -> bind m k w = bind m k' w.
Proof.
  intros Hk. unfold bind. destruct (m w) as [[a | e] w1]; auto.
Qed.

Section QuitEndsInput.
Context `{Externals}.

Lemma client_rounds_after_quit pre :
  forall line post w,
    is_quit (strip line) = true ->
    Client.chat_rounds (pre ++ line :: post) w
    = Client.chat_rounds (pre ++ [line]) w.
Proof.
  induction pre as [| l pre IH]; intros line post w Hq;
    cbn [app Client.chat_rounds].
  - now rewrite Hq.
  - apply bind_ext. intros _ w1.
    destruct (is_quit (strip l)); [reflexivity |].
    apply bind_ext. intros _ w2. now apply IH.
Qed.

Lemma client2_rounds_after_quit pre :
  forall line post w,
    is_quit (strip line) = true ->
    Client2Loop.chat_rounds (pre ++ line :: post) w
    = Client2Loop.chat_rounds (pre ++ [line]) w.
Proof.
  induction pre as [| l pre IH]; intros line post w Hq;
    cbn [app Client2Loop.chat_rounds].
  - now rewrite Hq.
  - apply bind_ext. intros _ w1.
    destruct (is_quit (strip l)); [reflexivity |].
    apply bind_ext. intros _ w2. now apply IH.
Qed.

Lemma client3_rounds_after_quit pre :
  forall line post w,
    is_quit (strip line) = true ->
    Client3.chat_rounds (pre ++ line :: post) w
    = Client3.chat_rounds (pre ++ [line]) w.
Proof.
  induction pre as [| l pre IH]; intros line post w Hq;
    cbn [app Client3.chat_rounds].
  - now rewrite Hq.
  - apply bind_ext. intros _ w1.
    destruct (is_quit (strip l)); [reflexivity |].
    apply bind_ext. intros r w2.
    apply bind_ext. intros _ w3. now apply IH.
Qed.

(** Nothing that follows a quit token is read: each loop behaves on the
    whole input as on the input cut after the token, so later lines cause
    no query, no output and no error. *)
Theorem quit_ends_input (pre post : list string) (line : string) (w : World) :
  is_quit (strip line) = true ->
  Client.chat_loop (pre ++ line :: post) w
  = Client.chat_loop (pre ++ [line]) w /\
  Client2Loop.chat_loop (pre ++ line :: post) w
  = Client2Loop.chat_loop (pre ++ [line]) w /\
  Client3.chat_loop (pre ++ line :: post) w
  = Client3.chat_loop (pre ++ [line]) w.
Proof.
  intros Hq.
  unfold Client.chat_loop, Client2Loop.chat_loop, Client3.chat_loop.
  repeat split; do 2 (apply bind_ext; intros _ ?);
    auto using client_rounds_after_quit, client2_rounds_after_quit,
      client3_rounds_after_quit.
Qed.

End QuitEndsInput.

Lemma quit_ends_input_witness :
  let E := Ref.externals (Ref.always (Return (Ref.reply [Ref.text_part "hello"] 4 2)))
             [] [] ["srv"] in
  let w := Ref.connected_world in
  Client.chat_loop (["hi"] ++ " EXIT " :: ["more"; "lines"]) w
  = Client.chat_loop (["hi"] ++ [" EXIT "]) w /\
  Client2Loop.chat_loop (["hi"] ++ " EXIT " :: ["more"; "lines"]) w
  = Client2Loop.chat_loop (["hi"] ++ [" EXIT "]) w /\
  Client3.chat_loop (["hi"] ++ " EXIT " :: ["more"; "lines"]) w
  = Client3.chat_loop (["hi"] ++ [" EXIT "]) w.
Proof.
  intros E w.
  apply (@quit_ends_input E ["hi"] ["more"; "lines"] " EXIT " w).
  reflexivity.
Defined.

